(** * RS-Conservation-GEE: Earth Engine scripts, embedded and checked

    The repository is a set of Earth Engine (JavaScript) scripts.  Each script
    runs client side: it reads its user settings, builds request objects for
    the platform and queues export tasks.  The development below embeds

    - the one plain JavaScript helper, [slugifyName];
    - the run of each script as an event trace (asset loads, export requests,
      thrown errors);
    - the summary-feature helpers of the two GSW scripts over the platform's
      dictionaries and lists;
    - the CHIRPS baseline / anomaly composition over a per-pixel semantics of
      the platform's image reducers;
    - the request graphs of the baseline / anomaly compositions.

    Platform primitives (ee.Dictionary, ee.List, ee.Number, image reducers)
    are not part of the repository; they are modelled from their documented
    behaviour, and doubles are idealised as rationals. *)

From Stdlib Require Import ZArith QArith List String Ascii Lia DecimalString.
From Stdlib Require Import Sorting.Permutation Sorting.Sorted.
From Stdlib Require Import Qround DecimalZ.
From stdpp Require Import base gmap strings list sorting.

Open Scope Z_scope.

(* ===================================================================== *)
(** * Part I: definitions                                                 *)
(* ===================================================================== *)

(** ** JavaScript strings and [slugifyName]
    (src/scripts/gsw_occurrence_change_generic.js, lines 21-26) *)

Module JsString.

(** A JavaScript string is a sequence of UTF-16 code units. *)
Definition code_unit := N.
Definition jsstring := list N.

Definition of_ascii_string (s : string) : jsstring :=
  map N_of_ascii (list_ascii_of_string s).

Definition UNDERSCORE : N := 95.
Definition HYPHEN : N := 45.

(** The class [\s] of a regular expression without the [u] flag, which is
    also the set [String.prototype.trim] strips: WhiteSpace and
    LineTerminator of ECMAScript. *)
Definition is_whitespace (c : N) : bool :=
  ((c =? 9) || (c =? 10) || (c =? 11) || (c =? 12) || (c =? 13) || (c =? 32)
   || (c =? 160) || (c =? 5760) || ((8192 <=? c) && (c <=? 8202))
   || (c =? 8232) || (c =? 8233) || (c =? 8239) || (c =? 8287)
   || (c =? 12288) || (c =? 65279))%N.

Definition is_digit (c : N) : bool := ((48 <=? c) && (c <=? 57))%N.
Definition is_letter (c : N) : bool :=
  (((65 <=? c) && (c <=? 90)) || ((97 <=? c) && (c <=? 122)))%N.

(** The class [\w]: [A-Za-z0-9_]. *)
Definition is_word_char (c : N) : bool :=
  is_letter c || is_digit c || (c =? UNDERSCORE)%N.

(** [s.trim()] *)
Fixpoint trimStart (s : jsstring) : jsstring :=
  match s with
  | [] => []
  | c :: s' => if is_whitespace c then trimStart s' else s
  end.

Fixpoint trimEnd (s : jsstring) : jsstring :=
  match s with
  | [] => []
  | c :: s' =>
      match trimEnd s' with
      | [] => if is_whitespace c then [] else [c]
      | t => c :: t
      end
  end.

Definition trim (s : jsstring) : jsstring := trimEnd (trimStart s).

(** [s.replace(/\s+/g, '_')]: the matcher scans left to right; [in_match]
    records that the previous code unit already belongs to the current
    (greedy) match of [\s+], whose replacement has been emitted. *)
Fixpoint replace_ws_runs_from (in_match : bool) (s : jsstring) : jsstring :=
  match s with
  | [] => []
  | c :: s' =>
      if is_whitespace c
      then (if in_match then replace_ws_runs_from true s'
            else UNDERSCORE :: replace_ws_runs_from true s')
      else c :: replace_ws_runs_from false s'
  end.

Definition replace_ws_runs (s : jsstring) : jsstring :=
  replace_ws_runs_from false s.

(** [s.replace(/[^\w\-]/g, '')] *)
Definition keeps (c : N) : bool := is_word_char c || (c =? HYPHEN)%N.

Definition remove_unsafe (s : jsstring) : jsstring := List.filter keeps s.

Definition slugifyName (s : jsstring) : jsstring :=
  remove_unsafe (replace_ws_runs (trim s)).

(** *** The description of [slugifyName] in words

    The whitespace-separated words of a string (its maximal runs of
    non-whitespace code units), from which the slug is described: the words,
    each with its unsafe code units deleted, joined by single underscores. *)
Fixpoint words_from (cur : jsstring) (s : jsstring) : list jsstring :=
  match s with
  | [] => match cur with [] => [] | _ => [rev cur] end
  | c :: s' =>
      if is_whitespace c
      then match cur with
           | [] => words_from [] s'
           | _ => rev cur :: words_from [] s'
           end
      else words_from (c :: cur) s'
  end.

Definition words (s : jsstring) : list jsstring := words_from [] s.

Fixpoint join_underscore (ws : list jsstring) : jsstring :=
  match ws with
  | [] => []
  | w :: rest =>
      match rest with
      | [] => w
      | _ => w ++ UNDERSCORE :: join_underscore rest
      end
  end.

Definition slug_in_words (s : jsstring) : jsstring :=
  join_underscore (map remove_unsafe (words s)).

(** No whitespace at the end (respectively the start) of a string. *)
Fixpoint clean_end (s : jsstring) : bool :=
  match s with
  | [] => true
  | c :: s' =>
      match s' with
      | [] => negb (is_whitespace c)
      | _ => clean_end s'
      end
  end.

Definition clean_start (s : jsstring) : bool :=
  match s with
  | [] => true
  | c :: _ => negb (is_whitespace c)
  end.

(** A code unit that may appear in a slug. *)
Definition slug_char (c : N) : Prop :=
  Is_true (is_letter c) \/ Is_true (is_digit c) \/ c = UNDERSCORE \/ c = HYPHEN.

End JsString.

(** ** The client-side run of a script

    A script runs top to bottom in the Code Editor.  What the outside sees of
    a run is the sequence of catalog assets it loads and of export tasks it
    queues, and the error that stops it, if any.  Calls that only build
    request objects (filters, band math, charts, map layers, prints) leave no
    event; the synchronous evaluations a script asks for ([getInfo]) are
    taken to succeed. *)

Module Script.

Inductive JsError :=
| Error (msg : string)             (* [throw new Error(msg)] of the script *)
| TypeError (member : string)      (* member access or call on a value without it *)
| ReferenceError (name : string).  (* use of an undeclared identifier *)

Inductive AssetKind := FeatureCollection | Image | ImageCollection.
Inductive ExportKind := ExportImage | ExportTable.
Inductive Destination := Drive | CloudStorage | Asset | BigQuery | FeatureView.

Inductive Event :=
| Load (kind : AssetKind) (id : string)
| Export (kind : ExportKind) (dest : Destination) (what : string).

Inductive Outcome (A : Type) :=
| Done (a : A)
| Thrown (e : JsError).
Arguments Done {A} a.
Arguments Thrown {A} e.

(** Events so far, and how the run went on. *)
Definition Run (A : Type) : Type := list Event * Outcome A.

#[global] Instance run_ret : MRet Run := fun A a => ([], Done a).
#[global] Instance run_bind : MBind Run := fun A B f m =>
  match m with
  | (t, Thrown e) => (t, Thrown e)
  | (t, Done a) => let '(t', o) := f a in (t ++ t', o)
  end.

Definition emit (e : Event) : Run unit := ([e], Done tt).
Definition throw {A : Type} (e : JsError) : Run A := ([], Thrown e).

Definition trace {A : Type} (r : Run A) : list Event := fst r.
Definition outcome {A : Type} (r : Run A) : Outcome A := snd r.
Definition completes {A : Type} (r : Run A) : Prop :=
  exists a, outcome r = Done a.

(** *** Values of the user settings *)

(** Numbers are the finite ones, as rationals. *)
Inductive JsValue :=
| JsUndefined
| JsNull
| JsBoolean (b : bool)
| JsNumber (q : Q)
| JsString (s : string).

(** [v === n] for a number literal [n]: no conversion, so only a number can
    be equal to it. *)
Definition strict_eq_number (v : JsValue) (n : Z) : bool :=
  match v with
  | JsNumber q => Qeq_bool q (inject_Z n)
  | _ => false
  end.

(** What the Imports panel can bind [AOI] to, and which of the members the
    scripts use on [AOI] each kind of object has. *)
Inductive EeObject := EeFeatureCollection | EeFeature | EeGeometry.

Definition has_method (o : EeObject) (m : string) : bool :=
  match o with
  | EeFeatureCollection =>
      bool_decide (m = "geometry" \/ m = "style" \/ m = "size")
  | EeFeature => bool_decide (m = "geometry")
  | EeGeometry => bool_decide (m = "type")
  end.

Record Env := {
  use_custom_aoi : bool;
  admin_level : JsValue;            (* CHIRPS script only *)
  imported_AOI : option EeObject    (* the [AOI] import, if there is one *)
}.

(** [AOI.m(...)]: a TypeError when [AOI] is undefined or has no such method. *)
Definition call_method (aoi : option EeObject) (m : string) : Run unit :=
  match aoi with
  | None => throw (TypeError m)
  | Some o => if has_method o m then mret tt else throw (TypeError m)
  end.

(** [AOI.geometry ? AOI.geometry() : AOI]: reading a member of [undefined]
    is a TypeError; on an object the test picks a branch and nothing fails. *)
Definition geometry_or_self (aoi : option EeObject) : Run unit :=
  match aoi with
  | None => throw (TypeError "geometry")
  | Some _ => mret tt
  end.

Definition LSIB : string := "USDOS/LSIB_SIMPLE/2017".

(** The AOI block shared by the generic scripts: the imported [AOI], or the
    country boundary filtered out of LSIB. *)
Definition load_aoi (env : Env) : Run (option EeObject) :=
  if use_custom_aoi env then
    geometry_or_self (imported_AOI env) ;;
    mret (imported_AOI env)
  else
    emit (Load FeatureCollection LSIB) ;;
    mret (Some EeFeatureCollection).

Definition toDrive (kind : ExportKind) (what : string) : Run unit :=
  emit (Export kind Drive what).

(** src/gsw_occurrence_change_generic.js, lines 1-321 *)
Definition gsw_generic (env : Env) : Run unit :=
  aoi ← load_aoi env ;
  emit (Load Image "JRC/GSW1_0/GlobalSurfaceWater") ;;
  call_method aoi "style" ;;
  toDrive ExportTable "transition_fc" ;;
  toDrive ExportImage "water_mask_aoi" ;;
  toDrive ExportImage "occurrence_aoi" ;;
  toDrive ExportImage "change_aoi" ;;
  toDrive ExportImage "transition_aoi".

(** src/gsw_occurrence_change_generic.js, lines 323-594 (PAS_WDPA_Generic) *)
Definition wdpa (env : Env) : Run unit :=
  aoi ← load_aoi env ;
  emit (Load FeatureCollection "WCMC/WDPA/current/polygons") ;;
  emit (Load FeatureCollection "WCMC/WDPA/current/points") ;;
  call_method aoi "style" ;;
  toDrive ExportTable "PA_polygons_selected" ;;
  toDrive ExportTable "PA_points_selected" ;;
  toDrive ExportImage "PA_raster_binary" ;;
  toDrive ExportImage "PA_raster_area" ;;
  toDrive ExportTable "summary_table".

(** src/scripts/gsw_occurrence_change_generic.js (GSW1_4 robust version) *)
Definition gsw_robust (env : Env) : Run unit :=
  (if use_custom_aoi env then
     match imported_AOI env with
     | None =>
         throw (Error "use_custom_aoi=true, but no AOI was imported. Import AOI in the Imports panel.")
     | Some _ => mret tt
     end
   else
     emit (Load FeatureCollection LSIB)) ;;
  emit (Load Image "JRC/GSW1_4/GlobalSurfaceWater") ;;
  toDrive ExportTable "transition_fc" ;;
  toDrive ExportImage "water_mask_aoi" ;;
  toDrive ExportImage "occurrence_aoi" ;;
  toDrive ExportImage "change_aoi" ;;
  toDrive ExportImage "transition_aoi".

(** src/unnamed/part_000, lines 1-247 (CHIRPS rainfall) *)
Definition chirps_aoi (env : Env) : Run (option EeObject) :=
  if use_custom_aoi env then
    geometry_or_self (imported_AOI env) ;;
    mret (imported_AOI env)
  else
    (if strict_eq_number (admin_level env) 0 then mret tt
     else if strict_eq_number (admin_level env) 1 then mret tt
     else if strict_eq_number (admin_level env) 2 then mret tt
     else throw (Error "admin_level must be 0, 1, or 2")) ;;
    mret (Some EeFeatureCollection).

Definition chirps (env : Env) : Run unit :=
  emit (Load FeatureCollection "FAO/GAUL/2015/level0") ;;
  emit (Load FeatureCollection "FAO/GAUL/2015/level1") ;;
  emit (Load FeatureCollection "FAO/GAUL/2015/level2") ;;
  aoi ← chirps_aoi env ;
  call_method aoi "size" ;;
  call_method aoi "style" ;;
  emit (Load ImageCollection "UCSB-CHG/CHIRPS/DAILY") ;;
  toDrive ExportImage "chirps_study" ;;
  toDrive ExportImage "chirps_baseline" ;;
  toDrive ExportImage "rainfall_anomaly" ;;
  toDrive ExportTable "admin_stats_with_centroid" ;;
  toDrive ExportTable "AOI".

(** src/dem_elevation_stats_generic.js: [AOI] is not declared by the script,
    so without the import its first use is a ReferenceError. *)
Definition dem (env : Env) : Run unit :=
  emit (Load FeatureCollection LSIB) ;;
  emit (Load Image "NASA/NASADEM_HGT/001") ;;
  match imported_AOI env with
  | None => throw (ReferenceError "AOI")
  | Some _ => mret tt
  end ;;
  call_method (imported_AOI env) "style" ;;
  toDrive ExportImage "dem_AOI" ;;
  toDrive ExportImage "dem_country" ;;
  toDrive ExportTable "AOI_stats_clean" ;;
  toDrive ExportTable "AOI_percentiles_clean".

(** src/unnamed/part_001 (Hansen GFC).  The custom branch tries
    [AOI.geometry], then [AOI.type && AOI.type() === 'Geometry'] (an
    [ee.String] is never [===] a string), then [instanceof], then falls back
    to [AOI] itself; only the first member access can fail. *)
Definition gfc (env : Env) : Run unit :=
  aoi ← load_aoi env ;
  emit (Load Image "UMD/hansen/global_forest_change_2024_v1_12") ;;
  call_method aoi "style" ;;
  toDrive ExportImage "treecover2000_aoi" ;;
  toDrive ExportImage "loss_aoi" ;;
  toDrive ExportImage "lossyear_aoi" ;;
  toDrive ExportImage "gain_aoi" ;;
  toDrive ExportImage "gfc".

(** src/unnamed/part_002 (Landsat NDVI anomalies) *)
Definition ndvi (env : Env) : Run unit :=
  aoi ← load_aoi env ;
  emit (Load ImageCollection "LANDSAT/LE07/C02/T1_L2") ;;
  emit (Load ImageCollection "ESA/WorldCover/v200") ;;
  call_method aoi "style" ;;
  toDrive ExportTable "meanByMonth" ;;
  toDrive ExportImage "anomaly_AOI" ;;
  toDrive ExportImage "baseline" ;;
  toDrive ExportImage "study_meanNDVI".

(** *** The scripts of the repository *)

Inductive ScriptId :=
| GSW_generic | WDPA | GSW_robust | CHIRPS | DEM | GFC | NDVI.

Definition all_scripts : list ScriptId :=
  [GSW_generic; WDPA; GSW_robust; CHIRPS; DEM; GFC; NDVI].

Definition run (s : ScriptId) (env : Env) : Run unit :=
  match s with
  | GSW_generic => gsw_generic env
  | WDPA => wdpa env
  | GSW_robust => gsw_robust env
  | CHIRPS => chirps env
  | DEM => dem env
  | GFC => gfc env
  | NDVI => ndvi env
  end.

(** The settings each script is committed with; [AOI] imported as a
    feature collection, which is what the scripts' [AOI.style] needs. *)
Definition source_env (s : ScriptId) : Env :=
  {| use_custom_aoi :=
       match s with
       | GSW_generic | GSW_robust | GFC | NDVI | DEM => true
       | WDPA | CHIRPS => false
       end;
     admin_level := JsNumber 2;
     imported_AOI := Some EeFeatureCollection |}.

(** Boundary sources an area of interest is cut from. *)
Definition is_boundary_source (id : string) : bool :=
  bool_decide (id = LSIB \/ id = "FAO/GAUL/2015/level0"
               \/ id = "FAO/GAUL/2015/level1" \/ id = "FAO/GAUL/2015/level2").

(** The datasets a run loads beyond the boundary sources, in order. *)
Fixpoint remote_datasets (t : list Event) : list string :=
  match t with
  | [] => []
  | Load _ id :: t' =>
      if is_boundary_source id then remote_datasets t'
      else id :: remote_datasets t'
  | Export _ _ _ :: t' => remote_datasets t'
  end.

Fixpoint exports (t : list Event) : list (ExportKind * Destination * string) :=
  match t with
  | [] => []
  | Export k d w :: t' => (k, d, w) :: exports t'
  | Load _ _ :: t' => exports t'
  end.

Definition is_export (e : Event) : bool :=
  match e with Export _ _ _ => true | Load _ _ => false end.

(** Every load of the trace comes before every export. *)
Fixpoint loads_before_exports (t : list Event) : bool :=
  match t with
  | [] => true
  | Load _ _ :: t' => loads_before_exports t'
  | Export _ _ _ :: t' => forallb is_export t'
  end.

(** *** Vocabulary of the statements about runs *)

(** [admin_level] is the number 0, 1 or 2. *)
Definition is_0_1_2 (v : JsValue) : Prop :=
  exists q, v = JsNumber q /\ (q == 0 \/ q == 1 \/ q == 2)%Q.

Definition GAUL_loads : list Event :=
  [Load FeatureCollection "FAO/GAUL/2015/level0";
   Load FeatureCollection "FAO/GAUL/2015/level1";
   Load FeatureCollection "FAO/GAUL/2015/level2"].

(** The CHIRPS settings with a given [admin_level], no custom AOI. *)
Definition env_level (v : JsValue) : Env :=
  {| use_custom_aoi := false; admin_level := v; imported_AOI := None |}.

(** The claim as written: every script loads exactly one remote dataset
    beyond the boundary source of its area of interest. *)
Definition loads_exactly_one_dataset (s : ScriptId) : Prop :=
  forall env, completes (run s env) ->
    length (remote_datasets (trace (run s env))) = 1%nat.

End Script.

(** ** Platform values: numbers, lists, dictionaries

    Server-side computations can fail (a missing dictionary key, a list
    index out of range, lists of different lengths): they are [option]s,
    [None] being the failed computation. *)

Module Ee.

(** An [ee.Number] holds an integer or a double; doubles are idealised as
    rationals. *)
Inductive Number :=
| Int (z : Z)
| Double (q : Q).

Definition to_Q (n : Number) : Q :=
  match n with
  | Int z => inject_Z z
  | Double q => q
  end.

Definition INT32_MIN : Z := - 2 ^ 31.
Definition INT32_MAX : Z := 2 ^ 31 - 1.

Definition clamp_int32 (z : Z) : Z := Z.max INT32_MIN (Z.min INT32_MAX z).

(** Rounding a rational toward zero. *)
Definition truncate (q : Q) : Z := Z.quot (Qnum q) (Z.pos (Qden q)).

(** [Number.toInt()]: cast to a signed 32-bit integer. *)
Definition toInt (n : Number) : Z :=
  match n with
  | Int z => clamp_int32 z
  | Double q => clamp_int32 (truncate q)
  end.

(** [a.divide(b)]: the quotient, and 0 for a division by 0 (as is the
    quotient of [Q]). *)
Definition divide (a b : Number) : Number := Double (to_Q a / to_Q b).

Definition gt (a : Number) (b : Q) : bool := negb (Qle_bool (to_Q a) b).

(** The literal [1e6] of the scripts. *)
Definition ONE_MILLION : Number := Int 1000000.

Section Format.
(** How the platform prints a double with the default pattern ['%s'] is
    not fixed here: it is a parameter. *)
Variable format_double : Q -> string.

(** [Number.format()] *)
Definition format (n : Number) : string :=
  match n with
  | Int z => NilZero.string_of_int (Z.to_int z)
  | Double q => format_double q
  end.
End Format.

(** [ee.List.get(index)]: a negative index counts backwards from the end;
    out of range is an error. *)
Definition list_get {A : Type} (l : list A) (i : Z) : option A :=
  if 0 <=? i then l !! Z.to_nat i
  else if - Z.of_nat (length l) <=? i then l !! Z.to_nat (Z.of_nat (length l) + i)
  else None.

(** [ee.Dictionary.get(key)] is an error on a missing key;
    [ee.Dictionary.get(key, defaultValue)] is not. *)
Definition dict_get {V : Type} (d : gmap string V) (key : string) : option V :=
  d !! key.

Definition dict_get_default {V : Type} (d : gmap string V) (key : string) (dflt : V) : V :=
  default dflt (d !! key).

(** [ee.Dictionary.fromLists(keys, values)]: two parallel lists. *)
Definition fromLists {V : Type} (keys : list string) (values : list V)
  : option (gmap string V) :=
  if decide (length keys = length values)
  then Some (fold_left (fun d kv => <[kv.1 := kv.2]> d) (zip keys values) ∅)
  else None.

(** [ee.Algorithms.If] reads a list condition as "is not empty". *)
Definition list_truthy {A : Type} (l : list A) : bool :=
  match l with [] => false | _ => true end.

(** One group of [ee.Reducer.sum().group(...)]: the group key under the
    group name, and the reducer output under ['sum']. *)
Abbreviation Group := (gmap string Number).

End Ee.

(** ** Transition-class summary, generic GSW script
    (src/gsw_occurrence_change_generic.js, lines 124-135, 142-144, 163-171,
    202-204) *)

Module GswGeneric.
Import Ee.

Record Feature := {
  transition_class_number : Number;
  transition_class_name : string;
  transition_class_palette : string;
  area_m2 : Number
}.

Section Metadata.
Variable format_double : Q -> string.
(** The properties ['transition_class_values'], ['transition_class_names']
    and ['transition_class_palette'] of the GSW image. *)
Variable class_values : list Number.
Variable class_names : list string.
Variable class_palette : list string.

Definition numToString (num : Number) : string := format format_double num.

Definition lookup_names : option (gmap string string) :=
  fromLists (map numToString class_values) class_names.

Definition lookup_palette : option (gmap string string) :=
  fromLists (map numToString class_values) class_palette.

Definition createFeature (transition_class_stats : Group) : option Feature :=
  class_number ← dict_get transition_class_stats "transition_class_value" ;
  let class_key := format format_double class_number in
  names ← lookup_names ;
  name ← dict_get names class_key ;
  palettes ← lookup_palette ;
  palette ← dict_get palettes class_key ;
  area ← dict_get transition_class_stats "sum" ;
  Some {| transition_class_number := class_number;
          transition_class_name := name;
          transition_class_palette := palette;
          area_m2 := area |}.

(** [ee.FeatureCollection(roi_stats.map(createFeature))] *)
Definition transition_fc (roi_stats : list Group) : option (list Feature) :=
  mapM createFeature roi_stats.

(** Feature [f] summarises group [g]: its number is the group key, its
    name and palette are the entries of the two lookup dictionaries under
    the formatted key, its area is the group's sum. *)
Definition summarises (names palettes : gmap string string)
    (g : Group) (f : Feature) : Prop :=
  g !! "transition_class_value" = Some (transition_class_number f)
  /\ names !! format format_double (transition_class_number f)
     = Some (transition_class_name f)
  /\ palettes !! format format_double (transition_class_number f)
     = Some (transition_class_palette f)
  /\ g !! "sum" = Some (area_m2 f).

(** A group the lookups know: it has its key and its sum, and both
    dictionaries have an entry for the formatted key. *)
Definition known_group (names palettes : gmap string string) (g : Group) : Prop :=
  exists n a,
    g !! "transition_class_value" = Some n /\ g !! "sum" = Some a
    /\ is_Some (names !! format format_double n)
    /\ is_Some (palettes !! format format_double n).

End Metadata.

End GswGeneric.

(** ** Transition-class summary, robust GSW script
    (src/scripts/gsw_occurrence_change_generic.js, lines 49-59, 202-227,
    254-260) *)

Module GswRobust.
Import Ee.

Definition class_names : list string :=
  ["No Change"; "Permanent Water"; "New Permanent"; "Lost Permanent";
   "Seasonal Water"; "New Seasonal"; "Lost Seasonal";
   "Seasonal to Permanent"; "Permanent to Seasonal";
   "Ephemeral Permanent"; "Ephemeral Seasonal"].

Definition class_colors : list string :=
  ["#ffffff"; "#0000ff"; "#22b14c"; "#d1102d"; "#99d9ea";
   "#b5e61d"; "#e6a1aa"; "#ff7f27"; "#ffc90e"; "#7f7f7f"; "#c3c3c3"].

Record Feature := {
  transition_class_number : Z;
  transition_class_name : string;
  transition_class_palette : string;
  area_km2 : Number
}.

(** [ee.Algorithms.If(valid, a, b)] selects [a] when [valid] and [b]
    otherwise; what the alternative not selected would compute plays no
    part. *)
Definition createFeature (transition_class_stats : Group) : option Feature :=
  v ← dict_get transition_class_stats "transition_class_value" ;
  let class_number := toInt v in
  let valid := (0 <=? class_number) && (class_number <=? 10) in
  class_name ← (if valid then list_get class_names class_number
                else Some "Unknown") ;
  class_color ← (if valid then list_get class_colors class_number
                 else Some "#999999") ;
  let area_km2 :=
    divide (dict_get_default transition_class_stats "sum" (Int 0)) ONE_MILLION in
  Some {| transition_class_number := class_number;
          transition_class_name := class_name;
          transition_class_palette := class_color;
          area_km2 := area_km2 |}.

(** [ee.Filter.gt('area_km2', 0)] *)
Definition positive_area (f : Feature) : bool := gt (area_km2 f) 0.

(** The order of [sort('area_km2', false)]: larger areas first. *)
Definition by_area_desc (f1 f2 : Feature) : Prop :=
  (to_Q (area_km2 f2) <= to_Q (area_km2 f1))%Q.

#[global] Instance by_area_desc_dec : RelDecision by_area_desc.
Proof.
  intros f1 f2. unfold by_area_desc.
  destruct (Qlt_le_dec (to_Q (area_km2 f1)) (to_Q (area_km2 f2))) as [H|H].
  - right. apply Qlt_not_le, H.
  - left. exact H.
Defined.

Definition transition_fc (groups : list Group) : option (list Feature) :=
  let groups := if list_truthy groups then groups else [] in
  fc ← mapM createFeature groups ;
  Some (merge_sort by_area_desc (List.filter positive_area fc)).

(** The valid class numbers. *)
Definition in_class_range (z : Z) : Prop := 0 <= z <= 10.

(** The name and colour the robust script gives a class number. *)
Definition table_name (n : Z) : string :=
  if (0 <=? n) && (n <=? 10)
  then nth (Z.to_nat n) class_names "" else "Unknown".

Definition table_color (n : Z) : string :=
  if (0 <=? n) && (n <=? 10)
  then nth (Z.to_nat n) class_colors "" else "#999999".

End GswRobust.

(** ** The two GSW scripts side by side *)

Module GswVariants.
Import Ee.

(** The groups of the reduction: integer keys (the ['transition'] band is an
    integer band), no key twice. *)
Definition distinct_integer_classes (groups : list Group) : Prop :=
  exists zs : list Z,
    Forall2 (fun g z => g !! "transition_class_value" = Some (Int z)
                        /\ INT32_MIN <= z <= INT32_MAX) groups zs
    /\ NoDup zs.

(** Robust feature [r] is generic feature [f] in km2 with the names of the
    hard-coded table. *)
Definition corresponds (f : GswGeneric.Feature) (r : GswRobust.Feature) : Prop :=
  GswGeneric.transition_class_number f = Int (GswRobust.transition_class_number r)
  /\ GswRobust.area_km2 r = divide (GswGeneric.area_m2 f) ONE_MILLION
  /\ GswRobust.transition_class_name r = GswRobust.table_name (GswRobust.transition_class_number r)
  /\ GswRobust.transition_class_palette r = GswRobust.table_color (GswRobust.transition_class_number r).

(** The GSW metadata as the generic script documents it (lines 29-41):
    class values 0 to 10 with their names and colours. *)
Definition documented_values : list Number :=
  map Int [0; 1; 2; 3; 4; 5; 6; 7; 8; 9; 10].
Definition documented_names : list string :=
  ["No Data"; "Permanent Water"; "New Permanent"; "Lost Permanent";
   "Seasonal Water"; "New Seasonal"; "Lost Seasonal"; "Seasonal to Permanent";
   "Permanent to Seasonal"; "Ephemeral Permanent"; "Ephemeral Seasonal"].
Definition documented_palette : list string :=
  ["000000"; "0000FF"; "00FFFF"; "00008B"; "00FF00"; "90EE90"; "006400";
   "FFFF00"; "FF8C00"; "FFD700"; "FF0000"].

Definition group (class_value : Z) (sum : Q) : Group :=
  <["transition_class_value" := Int class_value]> (<["sum" := Double sum]> ∅).

Definition sample_groups : list Group :=
  [group 3 2500000; group 1 0; group 2 7000000].

End GswVariants.

(** ** Images and image collections, pixel by pixel

    An image is a single band here (CHIRPS has one, ['precipitation']): at
    each pixel a value, or nothing where the pixel is masked.  Values are
    doubles, idealised as rationals. *)

Module Imagery.

Definition Pixel : Type := Z * Z.

(** A geometry is the set of pixels it covers. *)
Definition Geometry : Type := list Pixel.

(** A calendar date: the year and the day of the year (1-366). *)
Record Date := { year : Z; doy : Z }.

Definition date_le (a b : Date) : bool :=
  (year a <? year b) || ((year a =? year b) && (doy a <=? doy b)).
Definition date_lt (a b : Date) : bool :=
  (year a <? year b) || ((year a =? year b) && (doy a <? doy b)).

Record Image := {
  date : option Date;               (* ['system:time_start'], if any *)
  properties : list (string * Z);   (* properties added with [set] *)
  footprint : option Geometry;      (* [None]: unbounded *)
  pixels : Pixel -> option Q
}.

Definition ImageCollection : Type := list Image.

Definition covers (g : Geometry) (p : Pixel) : bool := bool_decide (p ∈ g).

Definition intersects (g1 g2 : Geometry) : bool := existsb (covers g2) g1.

(** [collection.filterBounds(geometry)] *)
Definition filterBounds (g : Geometry) (c : ImageCollection) : ImageCollection :=
  List.filter (fun i => match footprint i with
                        | None => true
                        | Some f => intersects f g
                        end) c.

(** [ee.Filter.date(start, end)]: from [start], before [end]. *)
Definition Filter_date (start stop : Date) (i : Image) : bool :=
  match date i with
  | Some d => date_le start d && date_lt d stop
  | None => false
  end.

Inductive CalendarField := Year | DayOfYear.

Definition calendar_value (f : CalendarField) (d : Date) : Z :=
  match f with Year => year d | DayOfYear => doy d end.

(** [ee.Filter.calendarRange(start, end, field)]: both ends included; when
    [end < start] the range wraps around. *)
Definition Filter_calendarRange (start stop : Z) (f : CalendarField) (i : Image) : bool :=
  match date i with
  | Some d =>
      let v := calendar_value f d in
      if start <=? stop then (start <=? v) && (v <=? stop)
      else (start <=? v) || (v <=? stop)
  | None => false
  end.

(** [ee.Filter.dayOfYear(start, end)] *)
Definition Filter_dayOfYear (start stop : Z) : Image -> bool :=
  Filter_calendarRange start stop DayOfYear.

(** [ee.List.sequence(start, end)] on integers: step 1, both ends included. *)
Definition List_sequence (start stop : Z) : list Z :=
  map (fun k => start + Z.of_nat k) (seq 0 (Z.to_nat (stop - start + 1))).

Definition qsum (vs : list Q) : Q := fold_right Qplus 0%Q vs.

(** The values a collection has at a pixel: masked pixels do not count. *)
Definition values_at (c : ImageCollection) (p : Pixel) : list Q :=
  omap (fun i => pixels i p) c.

Definition composite (px : Pixel -> option Q) : Image :=
  {| date := None; properties := []; footprint := None; pixels := px |}.

(** [collection.sum()] and [collection.mean()]: per pixel, over the images
    that have a value there; masked where none has.  The reduction of an
    empty collection, an image without bands on the platform, is the image
    without a value anywhere. *)
Definition sum (c : ImageCollection) : Image :=
  composite (fun p => match values_at c p with
                      | [] => None
                      | vs => Some (qsum vs)
                      end).

Definition mean (c : ImageCollection) : Image :=
  composite (fun p => match values_at c p with
                      | [] => None
                      | vs => Some (qsum vs / inject_Z (Z.of_nat (length vs)))%Q
                      end).

(** [image.clip(geometry)] *)
Definition clip (i : Image) (g : Geometry) : Image :=
  {| date := date i; properties := properties i; footprint := Some g;
     pixels := fun p => if covers g p then pixels i p else None |}.

(** [image.set(key, value)] *)
Definition set (i : Image) (key : string) (value : Z) : Image :=
  {| date := date i; properties := (key, value) :: properties i;
     footprint := footprint i; pixels := pixels i |}.

(** [image.mask()]: 1 where the image has a value, 0 where it is masked. *)
Definition mask (i : Image) : Image :=
  composite (fun p => match pixels i p with
                      | Some _ => Some 1%Q
                      | None => Some 0%Q
                      end).

(** [image.updateMask(mask)]: a pixel keeps its value where the mask is not
    zero. *)
Definition updateMask (i m : Image) : Image :=
  {| date := date i; properties := properties i; footprint := footprint i;
     pixels := fun p => match m.(pixels) p with
                        | Some w => if Qeq_bool w 0 then None else pixels i p
                        | None => None
                        end |}.

(** [a.subtract(b)]: a value where both have one. *)
Definition subtract (a b : Image) : Image :=
  {| date := date a; properties := properties a; footprint := footprint a;
     pixels := fun p => match pixels a p, pixels b p with
                        | Some x, Some y => Some (x - y)%Q
                        | _, _ => None
                        end |}.

(** An image has no value outside its footprint. *)
Definition masked_outside_footprint (i : Image) : Prop :=
  forall f p, footprint i = Some f -> covers f p = false -> pixels i p = None.

(** [ee.ImageCollection.fromImages(list)] *)
Definition fromImages (l : list Image) : ImageCollection := l.

End Imagery.

(** ** CHIRPS rainfall: study total, baseline, anomaly
    (src/unnamed/part_000, lines 22-32, 110-152) *)

Module Chirps.
Import Imagery.

Record Settings := {
  study_start : Date;
  study_end : Date;
  baseline_start_year : Z;
  baseline_end_year : Z;
  doy_start : Z;
  doy_end : Z
}.

(** The settings the script is committed with: study period 2024-01-01 to
    2024-12-31, baseline 2000-2015, days 1 to 365. *)
Definition source_settings : Settings :=
  {| study_start := {| year := 2024; doy := 1 |};
     study_end := {| year := 2024; doy := 366 |};
     baseline_start_year := 2000;
     baseline_end_year := 2015;
     doy_start := 1;
     doy_end := 365 |}.

Section Script.
Variable cfg : Settings.
Variable AOIgeom : Geometry.
(** The daily images of ['UCSB-CHG/CHIRPS/DAILY'], band ['precipitation']. *)
Variable dataset : ImageCollection.

Definition chirps : ImageCollection := filterBounds AOIgeom dataset.

Definition chirps_study : Image :=
  clip (sum (List.filter (Filter_date (study_start cfg) (study_end cfg)) chirps))
       AOIgeom.

Definition chirps_mam : ImageCollection :=
  List.filter (Filter_dayOfYear (doy_start cfg) (doy_end cfg)) chirps.

Definition years : list Z :=
  List_sequence (baseline_start_year cfg) (baseline_end_year cfg).

Definition chirps_baseline : Image :=
  mean (fromImages
          (map (fun y =>
                  set (clip (sum (List.filter (Filter_calendarRange y y Year)
                                              chirps_mam))
                            AOIgeom)
                      "year" y)
               years)).

Definition baseline_masked : Image :=
  updateMask chirps_baseline (mask chirps_study).

Definition rainfall_anomaly : Image :=
  clip (subtract chirps_study baseline_masked) AOIgeom.

(** *** The baseline in words

    The day-of-year window [doy_start, doy_end]: the days from [doy_start]
    to [doy_end]; with [doy_end < doy_start] the window runs over the end
    of the year, from [doy_start] to the last day and from the first day
    to [doy_end].

    For a year: at a pixel of the AOI, the sum of the daily images of that
    year whose day of year lies in the window; no value outside the AOI,
    nor where no such image has one.  The baseline: the mean of these
    yearly totals over the baseline years (over those that have a value at
    the pixel). *)
Definition in_window (d : Z) : bool :=
  if doy_start cfg <=? doy_end cfg
  then (doy_start cfg <=? d) && (d <=? doy_end cfg)
  else (doy_start cfg <=? d) || (d <=? doy_end cfg).

Definition in_season (y : Z) (i : Image) : bool :=
  match date i with
  | Some d => (year d =? y) && in_window (doy d)
  | None => false
  end.

Definition season_total (y : Z) (p : Pixel) : option Q :=
  if covers AOIgeom p then
    match values_at (List.filter (in_season y) chirps) p with
    | [] => None
    | vs => Some (qsum vs)
    end
  else None.

Definition mean_of_season_totals (p : Pixel) : option Q :=
  match omap (fun y => season_total y p) years with
  | [] => None
  | ts => Some (qsum ts / inject_Z (Z.of_nat (length ts)))%Q
  end.
End Script.

(** A small dataset: three daily images inside the baseline, one before
    it, over a two-pixel AOI. *)
Definition daily (y d : Z) (v : Q) : Image :=
  {| date := Some {| year := y; doy := d |}; properties := [];
     footprint := Some [(0, 0); (0, 1)];
     pixels := fun p => if covers [(0, 0)] p then Some v else None |}.

Definition sample_aoi : Geometry := [(0, 0); (0, 1)].

Definition sample_dataset : ImageCollection :=
  [daily 1999 10 100; daily 2000 10 5; daily 2000 20 7; daily 2001 10 3].

(** A window over the end of the year: days 300 to 60, baseline year
    2000. *)
Definition winter_2000 : Settings :=
  {| study_start := {| year := 2001; doy := 1 |};
     study_end := {| year := 2002; doy := 1 |};
     baseline_start_year := 2000;
     baseline_end_year := 2000;
     doy_start := 300;
     doy_end := 60 |}.

End Chirps.

(** ** The request graphs of the baseline / anomaly compositions

    What a composition builds client side is a graph of platform calls.
    A method call [x.f(a, b)] is the node [Call "f" [x; a; b]]; objects built
    outside the composition, and settings, are references. *)

Module Graph.

#[local] Unset Elimination Schemes.
Inductive Node :=
| Ref (name : string)
| Lit (text : string)
| Call (fn : string) (args : list Node)
| Fun (param : string) (body : Node).
#[local] Set Elimination Schemes.

Definition method (receiver : Node) (fn : string) (args : list Node) : Node :=
  Call fn (receiver :: args).

(** The functions a graph calls, outermost first. *)
Fixpoint calls (n : Node) : list string :=
  match n with
  | Ref _ | Lit _ => []
  | Call fn args => fn :: flat_map calls args
  | Fun _ body => calls body
  end.

(** *** CHIRPS rainfall (src/unnamed/part_000, lines 117-152) *)

Module Chirps.
Definition chirps_study : Node :=
  method
    (method
       (method (Ref "chirps") "filter"
          [Call "ee.Filter.date" [Ref "study_start"; Ref "study_end"]])
       "sum" [])
    "clip" [Ref "AOIgeom"].

Definition chirps_mam : Node :=
  method (Ref "chirps") "filter"
    [Call "ee.Filter.dayOfYear" [Ref "doy_start"; Ref "doy_end"]].

Definition years : Node :=
  Call "ee.List.sequence" [Ref "baseline_start_year"; Ref "baseline_end_year"].

Definition chirps_baseline : Node :=
  method
    (Call "ee.ImageCollection.fromImages"
       [method years "map"
          [Fun "y"
             (method
                (method
                   (method
                      (method chirps_mam "filter"
                         [Call "ee.Filter.calendarRange"
                            [Ref "y"; Ref "y"; Lit "year"]])
                      "sum" [])
                   "clip" [Ref "AOIgeom"])
                "set" [Lit "year"; Ref "y"])]])
    "mean" [].

Definition baseline_masked : Node :=
  method chirps_baseline "updateMask" [method chirps_study "mask" []].

Definition rainfall_anomaly : Node :=
  method (method chirps_study "subtract" [baseline_masked])
    "clip" [Ref "AOIgeom"].
End Chirps.

(** *** Landsat NDVI (src/unnamed/part_002, lines 241-266 and 338-354) *)

Module Ndvi.
(** The body of [computeAnomaly], a function of [image]. *)
Definition referenceImage : Node :=
  method
    (method (Ref "meanMonthlyNDVI") "filter"
       [Call "ee.Filter.eq" [Lit "month"; method (Ref "image") "get" [Lit "month"]]])
    "first" [].

Definition hasBands : Node :=
  method (method (method (Ref "image") "bandNames" []) "size" []) "gt" [Lit "0"].

Definition anomalyImage : Node :=
  Call "ee.Algorithms.If"
    [hasBands;
     Call "ee.Algorithms.If"
       [method (method (method referenceImage "bandNames" []) "size" [])
          "gt" [Lit "0"];
        method (Ref "image") "subtract" [referenceImage];
        Ref "image"];
     Ref "image"].

Definition computeAnomaly : Node :=
  Fun "image"
    (method (Call "ee.Image" [anomalyImage]) "set"
       [Lit "system:time_start";
        method (Ref "image") "get" [Lit "system:time_start"];
        Lit "year"; method (Ref "image") "get" [Lit "year"];
        Lit "month"; method (Ref "image") "get" [Lit "month"]]).

Definition baseline : Node :=
  method
    (method (method (Ref "withNDVI_baseline") "select" [Lit "NDVI"])
       "filter" [Call "ee.Filter.dayOfYear" [Ref "bm_start"; Ref "bm_end"]])
    "mean" [].

Definition study_meanNDVI : Node :=
  method
    (method
       (method
          (method (Ref "withNDVI") "filterDate" [Ref "anom_start"; Ref "anom_end"])
          "select" [Lit "NDVI"])
       "mean" [])
    "clip" [Ref "AOI_geometry"].

Definition meanAnomaly : Node :=
  method (method study_meanNDVI "subtract" [baseline])
    "rename" [Lit "NDVI_mean_anomaly"].

Definition anomaly_AOI : Node :=
  method
    (method (method study_meanNDVI "select" [Lit "NDVI"]) "subtract" [baseline])
    "clip" [Ref "AOI_geometry"].
End Ndvi.

(** The baseline / anomaly compositions of the repository. *)
Definition compositions : list (string * Node) :=
  [("rainfall_anomaly", Chirps.rainfall_anomaly);
   ("chirps_baseline", Chirps.chirps_baseline);
   ("computeAnomaly", Ndvi.computeAnomaly);
   ("meanAnomaly", Ndvi.meanAnomaly);
   ("anomaly_AOI", Ndvi.anomaly_AOI)].

(** The four aggregation primitives. *)
Definition aggregation_primitive (fn : string) : bool :=
  bool_decide (fn ∈ ["sum"; "mean"; "subtract"; "updateMask"]).

(** Calls that pick the images and pixels the primitives work on, or attach
    metadata: they neither compute nor branch. *)
Definition selection (fn : string) : bool :=
  bool_decide (fn ∈ ["filter"; "filterDate"; "select"; "clip"; "mask"; "set";
                     "rename"; "map"; "ee.Filter.date"; "ee.Filter.dayOfYear";
                     "ee.Filter.calendarRange"; "ee.List.sequence";
                     "ee.ImageCollection.fromImages"]).

(** The branching primitive of the platform. *)
Definition conditional (fn : string) : bool :=
  bool_decide (fn = "ee.Algorithms.If").

(** The composition is expressed purely by the aggregation primitives over
    selected collections: no other call. *)
Definition purely_aggregation (n : Node) : bool :=
  forallb (fun fn => aggregation_primitive fn || selection fn) (calls n).

End Graph.

(** ** What a request graph of the CHIRPS script computes

    The platform evaluates a request graph node by node.  The evaluator
    covers the calls of the CHIRPS compositions, with the semantics of
    [Imagery]; any other call has no value here. *)

Module Denotation.
Import Imagery.

#[local] Unset Elimination Schemes.
Inductive Value :=
| VNum (z : Z)
| VStr (s : string)
| VDate (d : Date)
| VGeom (g : Geometry)
| VFilter (f : Image -> bool)
| VImage (i : Image)
| VCollection (c : ImageCollection)
| VList (l : list Value).
#[local] Set Elimination Schemes.

Definition Env : Type := string -> option Value.

Definition bind_var (env : Env) (x : string) (v : Value) : Env :=
  fun y => if String.eqb y x then Some v else env y.

Definition as_image (v : Value) : option Image :=
  match v with VImage i => Some i | _ => None end.

(** A platform function applied to evaluated arguments (a method's receiver
    first). *)
Definition primitive (fn : string) (args : list Value) : option Value :=
  match fn, args with
  | "filter", [VCollection c; VFilter f] => Some (VCollection (List.filter f c))
  | "sum", [VCollection c] => Some (VImage (sum c))
  | "mean", [VCollection c] => Some (VImage (mean c))
  | "clip", [VImage i; VGeom g] => Some (VImage (clip i g))
  | "set", [VImage i; VStr k; VNum v] => Some (VImage (set i k v))
  | "mask", [VImage i] => Some (VImage (mask i))
  | "updateMask", [VImage i; VImage m] => Some (VImage (updateMask i m))
  | "subtract", [VImage a; VImage b] => Some (VImage (subtract a b))
  | "ee.Filter.date", [VDate a; VDate b] => Some (VFilter (Filter_date a b))
  | "ee.Filter.dayOfYear", [VNum a; VNum b] =>
      Some (VFilter (Filter_dayOfYear a b))
  | "ee.Filter.calendarRange", [VNum a; VNum b; VStr "year"] =>
      Some (VFilter (Filter_calendarRange a b Year))
  | "ee.List.sequence", [VNum a; VNum b] =>
      Some (VList (map VNum (List_sequence a b)))
  | "ee.ImageCollection.fromImages", [VList l] =>
      VCollection ∘ fromImages <$> mapM as_image l
  | _, _ => None
  end.

(** [list.map(function (x) { return body; })] evaluates the body once per
    element, with the parameter bound to it. *)
Fixpoint eval (env : Env) (n : Graph.Node) : option Value :=
  match n with
  | Graph.Ref x => env x
  | Graph.Lit t => Some (VStr t)
  | Graph.Fun _ _ => None
  | Graph.Call fn args =>
      match args with
      | [l; Graph.Fun x body] =>
          if String.eqb fn "map" then
            match eval env l with
            | Some (VList vs) =>
                VList <$> mapM (fun v => eval (bind_var env x v) body) vs
            | _ => None
            end
          else mapM (eval env) args ≫= primitive fn
      | _ => mapM (eval env) args ≫= primitive fn
      end
  end.

(** The objects and settings the CHIRPS compositions refer to. *)
Definition script_env (cfg : Chirps.Settings) (AOIgeom : Geometry)
    (dataset : ImageCollection) : Env :=
  fun x =>
    if String.eqb x "chirps" then Some (VCollection (Chirps.chirps AOIgeom dataset))
    else if String.eqb x "AOIgeom" then Some (VGeom AOIgeom)
    else if String.eqb x "study_start" then Some (VDate (Chirps.study_start cfg))
    else if String.eqb x "study_end" then Some (VDate (Chirps.study_end cfg))
    else if String.eqb x "baseline_start_year"
    then Some (VNum (Chirps.baseline_start_year cfg))
    else if String.eqb x "baseline_end_year"
    then Some (VNum (Chirps.baseline_end_year cfg))
    else if String.eqb x "doy_start" then Some (VNum (Chirps.doy_start cfg))
    else if String.eqb x "doy_end" then Some (VNum (Chirps.doy_end cfg))
    else None.

End Denotation.

(** ** Export names of the robust GSW script
    (src/scripts/gsw_occurrence_change_generic.js, lines 8-13, 68-83,
    334-384) *)

Module GswRobustNames.
Import JsString.

Definition lit (s : string) : jsstring := of_ascii_string s.

(** The numbers of the settings are doubles, idealised as rationals.
    [Number.isSafeInteger]: an integer of absolute value at most
    2^53 - 1. *)
Definition MAX_SAFE_INTEGER : Z := 2 ^ 53 - 1.

Definition safe_integer (q : Q) : option Z :=
  let n := Qfloor q in
  if Qeq_bool q (inject_Z n) && (Z.abs n <=? MAX_SAFE_INTEGER)
  then Some n
  else None.

(** The decimal digits of an integer, with a minus sign when negative. *)
Definition decimal (z : Z) : jsstring :=
  of_ascii_string (NilZero.string_of_int (Z.to_int z)).

Record Settings := {
  country_name : jsstring;
  use_custom_aoi : bool;
  aoi_name : jsstring;
  start_year : Q;
  end_year : Q
}.

Definition output_prefix (cfg : Settings) : jsstring :=
  if use_custom_aoi cfg
  then lit "GSW_" ++ slugifyName (aoi_name cfg)
  else lit "GSW_" ++ slugifyName (country_name cfg).

Section Printing.
(** String concatenation with a number prints the number: a safe integer
    by its decimal digits; any other number with a '.' before its
    fraction, with an exponent from 1e21 up ('1e+21') and below 1e-6, or,
    for a larger integer, by its shortest digits followed by zeros.  The
    printing of the numbers that are not safe integers is a parameter. *)
Variable to_string_other : Q -> jsstring.

Definition number_to_string (q : Q) : jsstring :=
  match safe_integer q with
  | Some z => decimal z
  | None => to_string_other q
  end.

Definition years_suffix (cfg : Settings) : jsstring :=
  number_to_string (start_year cfg) ++ lit "_" ++ number_to_string (end_year cfg).

(** The [description] of the five export requests, in the order they are
    queued. *)
Definition export_descriptions (cfg : Settings) : list jsstring :=
  [output_prefix cfg ++ lit "_Transition_Summary_km2";
   output_prefix cfg ++ lit "_Water_Mask_gt90";
   output_prefix cfg ++ lit "_Water_Occurrence_" ++ years_suffix cfg;
   output_prefix cfg ++ lit "_Change_Intensity_" ++ years_suffix cfg;
   output_prefix cfg ++ lit "_Transition_Classes_" ++ years_suffix cfg].
End Printing.

(** The settings the script is committed with. *)
Definition source_settings : Settings :=
  {| country_name := lit "Spain"; use_custom_aoi := true;
     aoi_name := lit "AOI_Inland_bassin"; start_year := 1984; end_year := 2021 |}.

(** A printing of 1e21 and of 1984.5 as the script's concatenation gives
    them; the other numbers are not needed. *)
Definition sample_printing (q : Q) : jsstring :=
  if Qeq_bool q (inject_Z (10 ^ 21)) then lit "1e+21"
  else if Qeq_bool q (3969 # 2) then lit "1984.5"
  else [].

End GswRobustNames.

(** ** Histogram of change intensity and pie chart, robust GSW script
    (src/scripts/gsw_occurrence_change_generic.js, lines 103-109, 140-180,
    229-234) *)

Module GswRobustCharts.
Import Ee.

Definition BIN_WIDTH : Z := 10.

(** [change.clip(AOI_geometry).updateMask(change.gte(-100).and(change.lte(100)))]
    at one pixel, [change] being the value of the band there, if it has one.
    The comparisons give 1 or 0 where [change] has a value. *)
Definition change_valid (in_aoi : bool) (change : option Z) : option Z :=
  let clipped := if in_aoi then change else None in
  match change with
  | Some v => if (-100 <=? v) && (v <=? 100) then clipped else None
  | None => None
  end.

(** [change_valid.divide(BIN_WIDTH).floor().multiply(BIN_WIDTH).toInt()];
    the quotient of [divide] is not an integer division. *)
Definition change_bin (valid : option Z) : option Z :=
  match valid with
  | Some v =>
      Some (clamp_int32 (Qfloor (inject_Z v / inject_Z BIN_WIDTH) * BIN_WIDTH))
  | None => None
  end.

Record BinFeature := {
  bin : Z;
  bin_label : string;
  area_km2 : Number
}.

(** [Number.format('%d')] of an integer. *)
Definition format_d (z : Z) : string := NilZero.string_of_int (Z.to_int z).

(** The function mapped over [bin_groups]. *)
Definition bin_feature (g : Group) : option BinFeature :=
  v ← dict_get g "bin" ;
  let b := toInt v in
  a ← dict_get g "sum" ;
  Some {| bin := b;
          bin_label := format_d b +:+ " to " +:+ format_d (b + BIN_WIDTH);
          area_km2 := a |}.

(** [ee.Dictionary(bin_area_dict).get('groups', ee.List([]))] *)
Definition bin_groups (bin_area_dict : gmap string (list Group)) : list Group :=
  dict_get_default bin_area_dict "groups" [].

(** The order of [sort('bin')]: smaller bins first. *)
Definition by_bin (f1 f2 : BinFeature) : Prop := bin f1 <= bin f2.

#[global] Instance by_bin_dec : RelDecision by_bin.
Proof. intros f1 f2. unfold by_bin. apply Z_le_dec. Defined.

Definition hist_fc (bin_area_dict : gmap string (list Group))
  : option (list BinFeature) :=
  fc ← mapM bin_feature (bin_groups bin_area_dict) ;
  Some (merge_sort by_bin fc).

(** [VIS_TRANSITION.palette], the colours of the transition map layer. *)
Definition VIS_TRANSITION_palette : list string :=
  ["#ffffff"; "#0000ff"; "#22b14c"; "#d1102d"; "#99d9ea";
   "#b5e61d"; "#e6a1aa"; "#ff7f27"; "#ffc90e"; "#7f7f7f"; "#c3c3c3"].

(** [createPieChartSliceDictionary]: one [{color: p}] per feature, in the
    order of the collection. *)
Definition createPieChartSliceDictionary (fc : list GswRobust.Feature)
  : list (gmap string string) :=
  map (fun p => {["color" := p]}) (map GswRobust.transition_class_palette fc).

(** A group with a ['sum'] that is strictly positive. *)
Definition positive_sum (g : Group) : bool :=
  gt (dict_get_default g "sum" (Int 0)) 0.

End GswRobustCharts.

(** ** Environments of a run, for examples *)

Module ScriptSamples.
Import Script.

(** The AOI switch and the import, with the committed [admin_level]. *)
Definition env_import (custom : bool) (aoi : option EeObject) : Env :=
  {| use_custom_aoi := custom; admin_level := JsNumber 2; imported_AOI := aoi |}.

End ScriptSamples.

(** ** CHIRPS rainfall: the AOI from the GAUL admin boundaries
    (src/unnamed/part_000, lines 9-20, 60-84, 192-198) *)

Module ChirpsAoi.
Import Script.

(** A feature of a GAUL collection: its properties. *)
Abbreviation Feature := (gmap string string).

(** [ee.Filter.eq(name, value)] and [ee.Filter.inList(name, values)] on a
    feature; a feature without the property does not pass. *)
Definition Filter_eq (name value : string) (f : Feature) : bool :=
  bool_decide (f !! name = Some value).

Definition Filter_inList (name : string) (values : list string) (f : Feature) : bool :=
  match f !! name with
  | Some v => bool_decide (v ∈ values)
  | None => false
  end.

Record Settings := {
  country_name : string;
  admin_level : JsValue;
  admin1_names : list string;
  admin2_names : list string
}.

(** [array.join(sep)] *)
Fixpoint join (sep : string) (l : list string) : string :=
  match l with
  | [] => ""
  | x :: rest =>
      match rest with
      | [] => x
      | _ => x +:+ sep +:+ join sep rest
      end
  end.

(** [names.length > 0] *)
Definition nonempty (names : list string) : bool :=
  match names with [] => false | _ => true end.

(** The branch [use_custom_aoi = false], lines 60-84: the features of the
    AOI and its label, or the error thrown. *)
Definition admin_aoi (cfg : Settings) (level0 level1 level2 : list Feature)
  : Outcome (list Feature * string) :=
  if strict_eq_number (admin_level cfg) 0 then
    Done (List.filter (Filter_eq "ADM0_NAME" (country_name cfg)) level0,
          country_name cfg +:+ " (Level 0)")
  else if strict_eq_number (admin_level cfg) 1 then
    let AOI := List.filter (Filter_eq "ADM0_NAME" (country_name cfg)) level1 in
    if nonempty (admin1_names cfg) then
      Done (List.filter (Filter_inList "ADM1_NAME" (admin1_names cfg)) AOI,
            country_name cfg +:+ " (Level 1: " +:+ join ", " (admin1_names cfg) +:+ ")")
    else
      Done (AOI, country_name cfg +:+ " (All Level 1)")
  else if strict_eq_number (admin_level cfg) 2 then
    let AOI := List.filter (Filter_eq "ADM0_NAME" (country_name cfg)) level2 in
    let AOI := if nonempty (admin1_names cfg)
               then List.filter (Filter_inList "ADM1_NAME" (admin1_names cfg)) AOI
               else AOI in
    if nonempty (admin2_names cfg) then
      Done (List.filter (Filter_inList "ADM2_NAME" (admin2_names cfg)) AOI,
            country_name cfg +:+ " (Level 2: " +:+ join ", " (admin2_names cfg) +:+ ")")
    else
      Done (AOI, country_name cfg +:+ " (All Level 2)")
  else
    Thrown (Error "admin_level must be 0, 1, or 2").

(** The export selectors, lines 192-198. *)
Definition selectors (admin_level : JsValue) : list string :=
  let selectors :=
    ["ADM0_NAME"; "longitude"; "latitude"; "mean"; "min"; "max"; "sum"] in
  let selectors :=
    if strict_eq_number admin_level 1
    then ["ADM0_NAME"; "ADM1_NAME"; "longitude"; "latitude"; "mean"; "min"; "max"; "sum"]
    else selectors in
  if strict_eq_number admin_level 2
  then ["ADM0_NAME"; "ADM1_NAME"; "ADM2_NAME"; "longitude"; "latitude";
        "mean"; "min"; "max"; "sum"]
  else selectors.

(** *** The AOI in words *)

(** The collection of a level. *)
Definition level_collection (k : Z) (level0 level1 level2 : list Feature)
  : list Feature :=
  if k =? 0 then level0 else if k =? 1 then level1 else level2.

(** A list of names restricts a property only when it is not empty. *)
Definition named_in (name : string) (names : list string) (f : Feature) : Prop :=
  names = [] \/ exists v, f !! name = Some v /\ v ∈ names.

Definition selected (k : Z) (cfg : Settings) (f : Feature) : Prop :=
  f !! "ADM0_NAME" = Some (country_name cfg)
  /\ (1 <= k -> named_in "ADM1_NAME" (admin1_names cfg) f)
  /\ (2 <= k -> named_in "ADM2_NAME" (admin2_names cfg) f).

(** The settings the script is committed with. *)
Definition source_settings : Settings :=
  {| country_name := "Portugal"; admin_level := JsNumber 2;
     admin1_names := []; admin2_names := ["Odemira"] |}.

Definition gaul (adm0 adm1 adm2 : string) : Feature :=
  {["ADM0_NAME" := adm0; "ADM1_NAME" := adm1; "ADM2_NAME" := adm2]}.

Definition sample_level2 : list Feature :=
  [gaul "Portugal" "Beja" "Odemira"; gaul "Portugal" "Faro" "Aljezur";
   gaul "Spain" "Huelva" "Aracena"].

End ChirpsAoi.

(** ** CHIRPS rainfall: a year compared with itself *)

Module ChirpsSamples.
Import Imagery Chirps.

(** Study period the whole year [Y], baseline the single year [Y], all
    days of the year. *)
Definition whole_year (Y : Z) : Settings :=
  {| study_start := {| year := Y; doy := 1 |};
     study_end := {| year := Y + 1; doy := 1 |};
     baseline_start_year := Y;
     baseline_end_year := Y;
     doy_start := 1;
     doy_end := 366 |}.

(** The day of the year of a dated image is a day of the year. *)
Definition calendar_date (i : Image) : Prop :=
  forall d, date i = Some d -> 1 <= doy d <= 366.

End ChirpsSamples.

(** ** Landsat NDVI: masks and anomaly images (src/unnamed/part_002)

    The Landsat images have several bands; the masks are followed at one
    pixel, where a band has a value or is masked ([None]). *)

Module NdviImages.
Import Imagery.

(** [parseInt(s, 2)] on a string of binary digits: the number the longest
    prefix of binary digits writes, NaN ([None]) when there is none. *)
Fixpoint binary_prefix (s : string) (acc : option Z) : option Z :=
  match s with
  | String "0" r => binary_prefix r (Some (2 * default 0 acc))
  | String "1" r => binary_prefix r (Some (2 * default 0 acc + 1))
  | _ => acc
  end.

Definition parseInt_2 (s : string) : option Z := binary_prefix s None.

(** [a.bitwiseAnd(n).eq(0)] and [a.eq(c)] at a pixel: 1 or 0, masked where
    [a] is. *)
Definition bitwiseAnd_eq_0 (a : option Z) (n : Z) : option Z :=
  option_map (fun v => if Z.land v n =? 0 then 1 else 0) a.

Definition eq_constant (a : option Z) (c : Z) : option Z :=
  option_map (fun v => if v =? c then 1 else 0) a.

(** [a.or(b)] at a pixel. *)
Definition image_or (a b : option Z) : option Z :=
  match a, b with
  | Some x, Some y => Some (if (x =? 0) && (y =? 0) then 0 else 1)
  | _, _ => None
  end.

(** [band.updateMask(m)] at a pixel. *)
Definition updateMask_at {A : Type} (v : option A) (m : option Z) : option A :=
  match m with
  | Some w => if w =? 0 then None else v
  | None => None
  end.

(** The quality bands of a Landsat 7 image at a pixel. *)
Record Quality := { QA_PIXEL : option Z; QA_RADSAT : option Z }.

(** Lines 146-147. *)
Definition qaMask (q : Quality) : option Z :=
  match parseInt_2 "11111" with
  | Some n => bitwiseAnd_eq_0 (QA_PIXEL q) n
  | None => None
  end.

Definition saturationMask (q : Quality) : option Z :=
  eq_constant (QA_RADSAT q) 0.

(** What [prepSrL7] returns at a pixel, for a band of
    [image.addBands(scaled, null, true)] with the value [band] there
    (lines 161-162). *)
Definition prepSrL7 {A : Type} (q : Quality) (band : option A) : option A :=
  updateMask_at (updateMask_at band (qaMask q)) (saturationMask q).

(** [veg_mask] (line 175) at a pixel with land cover [lc]: reading an
    index past the end of the array [lc_classes] gives [undefined], which
    [lc.eq] refuses ([None]). *)
Definition veg_mask (lc_classes : list Z) : option (option Z -> option Z) :=
  c0 ← lc_classes !! 0%nat;
  c1 ← lc_classes !! 1%nat;
  c2 ← lc_classes !! 2%nat;
  Some (fun lc => image_or (image_or (eq_constant lc c0) (eq_constant lc c1))
                    (eq_constant lc c2)).

(** The band 'NDVI' that [addNDVI] adds, at a pixel where the normalized
    difference is [nd] (lines 172-176). *)
Definition addNDVI (lc_classes : list Z) (lc : option Z) (nd : option Q)
  : option (option Q) :=
  m ← veg_mask lc_classes;
  Some (updateMask_at nd (m lc)).

Record Settings := {
  startYear : Z; endYear : Z; startMonth : Z; endMonth : Z;
  b_start : Date; b_end : Date; bm_start : Z; bm_end : Z;
  anom_start : Date; anom_end : Date
}.

Section Script.
Variable cfg : Settings.
Variable AOI_geometry : Geometry.
(** The band 'NDVI' of the collection [withNDVI]. *)
Variable withNDVI : ImageCollection.

(** The properties 'year' and 'month' of the images of [monthlyNDVI], in
    the order of the collection (lines 190-208). *)
Definition years : list Z := List_sequence (startYear cfg) (endYear cfg).
Definition months : list Z := List_sequence (startMonth cfg) (endMonth cfg).

Definition monthlyNDVI_keys : list (Z * Z) :=
  flat_map (fun y => map (fun m => (y, m)) months) years.

(** Lines 184, 338-354; [select] and [rename] change no pixel of a band. *)
Definition withNDVI_baseline : ImageCollection :=
  List.filter (Filter_date (b_start cfg) (b_end cfg)) withNDVI.

Definition baseline : Image :=
  mean (List.filter (Filter_dayOfYear (bm_start cfg) (bm_end cfg))
          withNDVI_baseline).

Definition study_meanNDVI : Image :=
  clip (mean (List.filter (Filter_date (anom_start cfg) (anom_end cfg)) withNDVI))
    AOI_geometry.

Definition meanAnomaly : Image := subtract study_meanNDVI baseline.

Definition anomaly_AOI : Image :=
  clip (subtract study_meanNDVI baseline) AOI_geometry.
End Script.

End NdviImages.

(** ** Hansen forest change: the statistics (src/unnamed/part_001)

    The statistics reduce images over the AOI with [ee.Reducer.sum()].  A
    region is the list of its pixels at the scale of the reduction; a pixel
    carries its area in m2, as [ee.Image.pixelArea()] gives it, and the
    values of the bands clipped to the AOI ([None] where masked).  Partial
    pixels on the border, which the platform weights, are left out. *)

Module Gfc.
Import Imagery.




(** [band.gt(c)]: 1 or 0. *)
Definition gt (a : option Z) (c : Z) : option Q :=
  option_map (fun v => if c <? v then 1%Q else 0%Q) a.


Definition divide (a : option Q) (c : Q) : option Q :=
  option_map (fun v => (v / c)%Q) a.












End Gfc.

(** ** WDPA protected areas: the selection
    (src/gsw_occurrence_change_generic.js, lines 383-428) *)

Module Wdpa.
Import Imagery.

Inductive Value := Str (s : string) | Num (q : Q) | Bool (b : bool).

Record Feature := { geometry : Geometry; props : gmap string Value }.

(** [f.set(key, value)] *)
Definition set (f : Feature) (key : string) (v : Value) : Feature :=
  {| geometry := geometry f; props := <[key := v]> (props f) |}.

(** [ee.Filter.eq(key, true)] *)
Definition Filter_eq_true (key : string) (f : Feature) : bool :=
  match props f !! key with
  | Some (Bool true) => true
  | _ => false
  end.

(** [ee.Filter.inList(key, list)], on a list of strings. *)
Definition Filter_inList (key : string) (l : list string) (f : Feature) : bool :=
  match props f !! key with
  | Some (Str s) => bool_decide (s ∈ l)
  | _ => false
  end.

(** [collection.select(columns)] on a feature: the listed properties. *)
Definition select (columns : list string) (f : Feature) : Feature :=
  {| geometry := geometry f;
     props := filter (fun kv => kv.1 ∈ columns) (props f) |}.

Definition columns_to_keep : list string :=
  ["NAME_ENG"; "DESIG_ENG"; "GIS_AREA"; "GOV_TYPE"; "OWN_TYPE"]%string.

Section Script.
Variable AOIgeom : Geometry.
Variable allowedDesigs : list string.

(** Lines 394-412, for the polygons and for the points alike. *)
Definition in_AOI (raw : list Feature) : list Feature :=
  List.filter (Filter_eq_true "intersects")
    (map (fun f => set f "intersects" (Bool (intersects (geometry f) AOIgeom)))
       raw).

Definition PA (raw : list Feature) : list Feature :=
  if (0 <? length allowedDesigs)%nat
  then List.filter (Filter_inList "DESIG_ENG" allowedDesigs) (in_AOI raw)
  else in_AOI raw.

(** Lines 424-427. *)
Definition PA_selected (raw : list Feature) : list Feature :=
  map (select columns_to_keep) (PA raw).
End Script.

End Wdpa.

(* ===================================================================== *)
(** * Part II: theorems                                                   *)
(* ===================================================================== *)

Module JsStringFacts.
Import JsString.

Example slug_of_aoi_name :
  slugifyName (of_ascii_string "  AOI  Inland/bassin (v2) ") =
  of_ascii_string "AOI_Inlandbassin_v2".
Proof. vm_compute. reflexivity. Qed.

(** Trimming does not change the words of a string. *)
Lemma words_from_trimStart (s : jsstring) :
  words_from [] (trimStart s) = words_from [] s.
Proof.
  induction s as [|c s IH]; simpl; [reflexivity|].
  destruct (is_whitespace c) eqn:E; simpl; [exact IH|].
  rewrite E. reflexivity.
Qed.

Lemma words_from_trimEnd (s : jsstring) :
  forall cur, words_from cur (trimEnd s) = words_from cur s.
Proof.
  induction s as [|c s IH]; intros cur; simpl; [reflexivity|].
  destruct (trimEnd s) as [|d t] eqn:T.
  - destruct (is_whitespace c) eqn:E; simpl.
    + destruct cur; rewrite <- IH; reflexivity.
    + rewrite E, <- IH. reflexivity.
  - simpl. destruct (is_whitespace c) eqn:E.
    + destruct cur; rewrite <- IH; simpl; reflexivity.
    + rewrite <- IH. reflexivity.
Qed.

Lemma words_trim (s : jsstring) : words (trim s) = words s.
Proof.
  unfold words, trim. rewrite words_from_trimEnd. apply words_from_trimStart.
Qed.

Lemma clean_end_trimEnd (s : jsstring) : clean_end (trimEnd s) = true.
Proof.
  induction s as [|c s IH]; simpl; [reflexivity|].
  destruct (trimEnd s) as [|d t] eqn:T.
  - destruct (is_whitespace c) eqn:E; simpl; [reflexivity|]. rewrite E. reflexivity.
  - exact IH.
Qed.

Lemma clean_start_trimStart (s : jsstring) : clean_start (trimStart s) = true.
Proof.
  induction s as [|c s IH]; simpl; [reflexivity|].
  destruct (is_whitespace c) eqn:E; simpl; [exact IH|]. rewrite E. reflexivity.
Qed.

Lemma clean_start_trimEnd (s : jsstring) :
  clean_start s = true -> clean_start (trimEnd s) = true.
Proof.
  destruct s as [|c s]; simpl; [reflexivity|].
  intros H. destruct (trimEnd s); [|exact H].
  destruct (is_whitespace c) eqn:E; [discriminate H|]. simpl.
  rewrite E. reflexivity.
Qed.

Lemma clean_trim (s : jsstring) :
  clean_start (trim s) = true /\ clean_end (trim s) = true.
Proof.
  unfold trim. split.
  - apply clean_start_trimEnd, clean_start_trimStart.
  - apply clean_end_trimEnd.
Qed.

(** A string that ends in a non-whitespace code unit has a word. *)
Lemma words_from_nonempty (s : jsstring) :
  forall cur, s <> [] -> clean_end s = true -> words_from cur s <> [].
Proof.
  induction s as [|c s IH]; intros cur Hne Hc; [congruence|].
  simpl in *. destruct s as [|d s].
  - destruct (is_whitespace c); [discriminate|]. simpl. destruct cur; discriminate.
  - destruct (is_whitespace c).
    + destruct cur; [apply IH; [discriminate|exact Hc]|discriminate].
    + apply IH; [discriminate|exact Hc].
Qed.

Lemma clean_end_tail (c : N) (s : jsstring) :
  clean_end (c :: s) = true -> clean_end s = true.
Proof. simpl. destruct s; [reflexivity|auto]. Qed.

(** The scan of [/\s+/g] over a string without trailing whitespace, against
    the words of the string. *)
Lemma replace_ws_runs_words (s : jsstring) :
  clean_end s = true ->
  (forall cur, cur <> [] ->
     join_underscore (words_from cur s) = rev cur ++ replace_ws_runs_from false s)
  /\ join_underscore (words_from [] s) = replace_ws_runs_from true s.
Proof.
  induction s as [|c s IH]; intros Hc.
  - split; [|reflexivity]. intros cur Hne. simpl.
    destruct cur; [congruence|]. simpl. rewrite app_nil_r. reflexivity.
  - pose proof (clean_end_tail _ _ Hc) as Hs.
    destruct (IH Hs) as [IH1 IH2]. split.
    + intros cur Hne. simpl. destruct (is_whitespace c) eqn:E.
      * assert (Hs' : s <> []).
        { intros ->. simpl in Hc. rewrite E in Hc. discriminate. }
        pose proof (words_from_nonempty s [] Hs' Hs) as Hw.
        destruct cur as [|a cur]; [congruence|].
        cbn [join_underscore]. rewrite IH2.
        destruct (words_from [] s); [congruence|]. reflexivity.
      * rewrite IH1 by discriminate. simpl. rewrite <- app_assoc. reflexivity.
    + simpl. destruct (is_whitespace c) eqn:E; [exact IH2|].
      rewrite IH1 by discriminate. reflexivity.
Qed.

Lemma replace_ws_runs_clean_start (s : jsstring) :
  clean_start s = true ->
  replace_ws_runs_from false s = replace_ws_runs_from true s.
Proof.
  destruct s as [|c s]; simpl; [reflexivity|].
  destruct (is_whitespace c); [discriminate|reflexivity].
Qed.

Lemma replace_ws_runs_trim (s : jsstring) :
  replace_ws_runs (trim s) = join_underscore (words s).
Proof.
  destruct (clean_trim s) as [H1 H2]. unfold replace_ws_runs.
  rewrite (replace_ws_runs_clean_start _ H1).
  destruct (replace_ws_runs_words _ H2) as [_ <-].
  fold (words (trim s)). rewrite words_trim. reflexivity.
Qed.

(** Deleting unsafe code units commutes with joining by underscores. *)
Lemma remove_unsafe_join (ws : list jsstring) :
  remove_unsafe (join_underscore ws) = join_underscore (map remove_unsafe ws).
Proof.
  induction ws as [|w ws IH]; [reflexivity|].
  destruct ws as [|w' ws]; [reflexivity|].
  change (join_underscore (w :: w' :: ws))
    with (w ++ UNDERSCORE :: join_underscore (w' :: ws)).
  unfold remove_unsafe in *. rewrite List.filter_app.
  change (List.filter keeps (UNDERSCORE :: join_underscore (w' :: ws)))
    with (UNDERSCORE :: List.filter keeps (join_underscore (w' :: ws))).
  rewrite IH. reflexivity.
Qed.

Lemma keeps_slug_char (c : N) : keeps c = true -> slug_char c.
Proof.
  unfold keeps, is_word_char, slug_char. intros H.
  destruct (is_letter c); [left; exact I|].
  destruct (is_digit c); [right; left; exact I|].
  simpl in H. apply orb_true_iff in H as [H|H]; apply N.eqb_eq in H; auto.
Qed.

Lemma slug_char_range (c : N) :
  slug_char c ->
  (48 <= c <= 57 \/ 65 <= c <= 90 \/ 97 <= c <= 122 \/ c = 95 \/ c = 45)%N.
Proof.
  unfold slug_char, is_letter, is_digit, UNDERSCORE, HYPHEN.
  rewrite !Is_true_true, orb_true_iff, !andb_true_iff, !N.leb_le. lia.
Qed.

Lemma slug_char_not_whitespace (c : N) : slug_char c -> is_whitespace c = false.
Proof.
  intros H. apply slug_char_range in H. unfold is_whitespace.
  rewrite !orb_false_iff, andb_false_iff, !N.eqb_neq, !N.leb_gt.
  repeat split; lia.
Qed.

(** C10.  For every string [s], every code unit of [slugifyName s] is a
    letter, a digit, an underscore or a hyphen (so none is whitespace), and
    the slug is what the description says: the whitespace-separated words of
    [s] (leading and trailing whitespace gone, each run of inner whitespace
    one separator), each with the code units other than word characters and
    hyphens deleted, joined by single underscores. *)
Theorem slugifyName_safe_slug (s : jsstring) :
  Forall slug_char (slugifyName s)
  /\ Forall (fun c => is_whitespace c = false) (slugifyName s)
  /\ slugifyName s = slug_in_words s.
Proof.
  assert (H : Forall slug_char (slugifyName s)).
  { unfold slugifyName, remove_unsafe. apply List.Forall_forall. intros c Hc.
    apply List.filter_In in Hc as [_ Hc]. apply keeps_slug_char, Hc. }
  split; [exact H|]. split.
  - eapply List.Forall_impl; [|exact H]. apply slug_char_not_whitespace.
  - unfold slugifyName, slug_in_words.
    rewrite replace_ws_runs_trim. apply remove_unsafe_join.
Qed.

End JsStringFacts.

Module ScriptFacts.
Import Script.

(** Case analysis on the environment of a run: the AOI switch, the import,
    and the outcome of the three strict comparisons of [admin_level]. *)
Ltac case_env env :=
  let u := fresh "u" in
  let a := fresh "a" in
  let i := fresh "i" in
  destruct env as [u a i];
  unfold run, gsw_generic, wdpa, gsw_robust, chirps, dem, gfc, ndvi,
    load_aoi, chirps_aoi;
  cbn [use_custom_aoi admin_level imported_AOI];
  destruct i as [[| |]|];
  (destruct u;
   [| destruct (strict_eq_number a 0) eqn:?;
      [| destruct (strict_eq_number a 1) eqn:?;
         [| destruct (strict_eq_number a 2) eqn:? ] ] ]).

Lemma is_0_1_2_strict (v : JsValue) :
  is_0_1_2 v <->
  strict_eq_number v 0 || strict_eq_number v 1 || strict_eq_number v 2 = true.
Proof.
  unfold is_0_1_2. rewrite !orb_true_iff. split.
  - intros (q & -> & H). simpl. rewrite !Qeq_bool_iff. tauto.
  - destruct v as [| |b|q|s]; simpl; try (intros [[H|H]|H]; discriminate).
    rewrite !Qeq_bool_iff. intros H. exists q. tauto.
Qed.

(** C8.  CHIRPS script with [use_custom_aoi = false]: when [admin_level] is
    not the number 0, 1 or 2 the run throws
    [Error 'admin_level must be 0, 1, or 2'] with only the three GAUL
    boundary collections loaded (no CHIRPS load, no export queued); when it
    is 0, 1 or 2 the run completes, so that error is not raised. *)
Theorem chirps_admin_level_guard (env : Env) :
  use_custom_aoi env = false ->
  (~ is_0_1_2 (admin_level env) ->
     run CHIRPS env = (GAUL_loads, Thrown (Error "admin_level must be 0, 1, or 2"))
     /\ ~ In (Load ImageCollection "UCSB-CHG/CHIRPS/DAILY") (trace (run CHIRPS env))
     /\ exports (trace (run CHIRPS env)) = [])
  /\ (is_0_1_2 (admin_level env) ->
        outcome (run CHIRPS env) = Done tt
        /\ In (Load ImageCollection "UCSB-CHG/CHIRPS/DAILY") (trace (run CHIRPS env))).
Proof.
  intros Hu. rewrite is_0_1_2_strict.
  case_env env; try discriminate Hu;
    repeat match goal with H : strict_eq_number _ _ = _ |- _ => rewrite H end;
    simpl; (split; [intros Hn | intros Hy]); try congruence.
  all: first
    [ split; [reflexivity|tauto]
    | split; [reflexivity|]; split; [|reflexivity];
      intros [H|[H|[H|[]]]]; discriminate ].
Qed.

Lemma chirps_admin_level_guard_witness :
  run CHIRPS (env_level (JsString "1")) =
    (GAUL_loads, Thrown (Error "admin_level must be 0, 1, or 2"))
  /\ outcome (run CHIRPS (env_level (JsNumber 2))) = Done tt.
Proof.
  split.
  - apply (chirps_admin_level_guard (env_level (JsString "1")) eq_refl).
    intros (q & H & _). discriminate H.
  - apply (chirps_admin_level_guard (env_level (JsNumber 2)) eq_refl).
    exists 2%Q. split; [reflexivity|]. right. right. reflexivity.
Defined.

Lemma thrown_not_completes {A : Type} (t : list Event) (e : JsError) :
  ~ completes ((t, Thrown e) : Run A).
Proof. intros [a H]. discriminate H. Qed.

Lemma done_completes {A : Type} (t : list Event) (a : A) :
  completes ((t, Done a) : Run A).
Proof. exists a. reflexivity. Qed.

(** Evaluate the run in every case of the environment. *)
Ltac run_cases s env :=
  destruct s; case_env env;
  repeat match goal with H : strict_eq_number _ _ = _ |- _ => rewrite H end;
  cbn.

(** C7.  Every script queues export tasks, and only for Google Drive: in any
    run of any script every export request made has destination Drive; a run
    that completes has queued at least one; and each script, run with the
    settings it is committed with, completes (and so queues exports). *)
Theorem exports_only_to_drive (s : ScriptId) (env : Env) :
  Forall (fun x => snd (fst x) = Drive) (exports (trace (run s env)))
  /\ (completes (run s env) -> exports (trace (run s env)) <> [])
  /\ completes (run s (source_env s))
  /\ exports (trace (run s (source_env s))) <> [].
Proof.
  split; [|split; [|split]].
  - run_cases s env; repeat constructor.
  - run_cases s env; intros Hc; try discriminate;
      exfalso; revert Hc; apply thrown_not_completes.
  - destruct s; apply done_completes.
  - destruct s; discriminate.
Qed.

Lemma exports_only_to_drive_witness :
  exports (trace (run NDVI (source_env NDVI))) <> [].
Proof.
  apply (exports_only_to_drive NDVI (source_env NDVI)).
Defined.

(** C5, as written, fails: the NDVI script loads the Landsat 7 collection
    and the ESA WorldCover collection. *)
Lemma ndvi_loads_two_datasets :
  remote_datasets (trace (run NDVI (source_env NDVI))) =
    ["LANDSAT/LE07/C02/T1_L2"; "ESA/WorldCover/v200"]
  /\ ~ (forall s, In s all_scripts -> loads_exactly_one_dataset s).
Proof.
  split; [reflexivity|]. intros H.
  assert (Hin : In NDVI all_scripts) by (simpl; tauto).
  specialize (H NDVI Hin (source_env NDVI) (done_completes _ _)).
  discriminate H.
Qed.

(** C5, amended.  Every completed run of a script loads its remote datasets
    before it queues any export, and loads at least one beyond the boundary
    sources: exactly one in the two GSW scripts and the CHIRPS, DEM and GFC
    scripts; two in the WDPA script (polygons and points) and in the NDVI
    script (Landsat 7 and ESA WorldCover). *)
Theorem remote_datasets_per_script (s : ScriptId) (env : Env) :
  completes (run s env) ->
  loads_before_exports (trace (run s env)) = true
  /\ remote_datasets (trace (run s env)) =
     match s with
     | GSW_generic => ["JRC/GSW1_0/GlobalSurfaceWater"]
     | WDPA => ["WCMC/WDPA/current/polygons"; "WCMC/WDPA/current/points"]
     | GSW_robust => ["JRC/GSW1_4/GlobalSurfaceWater"]
     | CHIRPS => ["UCSB-CHG/CHIRPS/DAILY"]
     | DEM => ["NASA/NASADEM_HGT/001"]
     | GFC => ["UMD/hansen/global_forest_change_2024_v1_12"]
     | NDVI => ["LANDSAT/LE07/C02/T1_L2"; "ESA/WorldCover/v200"]
     end.
Proof.
  run_cases s env; intros Hc; try (split; reflexivity);
    exfalso; revert Hc; apply thrown_not_completes.
Qed.

Lemma remote_datasets_per_script_witness :
  remote_datasets (trace (run WDPA (source_env WDPA))) =
    ["WCMC/WDPA/current/polygons"; "WCMC/WDPA/current/points"].
Proof.
  apply (remote_datasets_per_script WDPA (source_env WDPA)).
  exists tt. reflexivity.
Defined.

End ScriptFacts.

Module GswFacts.
Import Ee GswVariants.

Local Abbreviation in_class_range := GswRobust.in_class_range.
Local Abbreviation table_name := GswRobust.table_name.
Local Abbreviation table_color := GswRobust.table_color.

(** *** Dictionaries from parallel lists *)

Lemma fold_insert_lookup_notin {V : Type} (kvs : list (string * V))
    (d : gmap string V) (k : string) :
  k ∉ kvs.*1 ->
  fold_left (fun d kv => <[kv.1 := kv.2]> d) kvs d !! k = d !! k.
Proof.
  revert d. induction kvs as [|[k' v'] kvs IH]; intros d Hk; [reflexivity|].
  simpl in *. apply not_elem_of_cons in Hk as [Hne Hk].
  rewrite IH by exact Hk. apply lookup_insert_ne. congruence.
Qed.

Lemma fold_insert_lookup {V : Type} (kvs : list (string * V))
    (d : gmap string V) (i : nat) (k : string) (v : V) :
  NoDup kvs.*1 -> kvs !! i = Some (k, v) ->
  fold_left (fun d kv => <[kv.1 := kv.2]> d) kvs d !! k = Some v.
Proof.
  revert d i. induction kvs as [|[k' v'] kvs IH]; intros d i Hnd Hi.
  - destruct i; discriminate Hi.
  - simpl in *. apply NoDup_cons in Hnd as [Hk' Hnd]. destruct i as [|i].
    + simpl in Hi. injection Hi as -> ->.
      rewrite fold_insert_lookup_notin by exact Hk'.
      apply lookup_insert_eq.
    + simpl in Hi. eapply IH; eassumption.
Qed.

(** With distinct keys, the dictionary of [fromLists] maps the key at each
    position to the value at that position. *)
Lemma fromLists_lookup {V : Type} (keys : list string) (values : list V)
    (d : gmap string V) (i : nat) (k : string) (v : V) :
  NoDup keys -> fromLists keys values = Some d ->
  keys !! i = Some k -> values !! i = Some v -> d !! k = Some v.
Proof.
  unfold fromLists. intros Hnd Hd Hk Hv.
  destruct (decide (length keys = length values)) as [Hlen|]; [|discriminate].
  injection Hd as <-. apply (fold_insert_lookup _ _ i).
  - rewrite fst_zip; [exact Hnd|lia].
  - rewrite lookup_zip_with, Hk, Hv. reflexivity.
Qed.

(** *** The generic script *)

Section Generic.
Variable format_double : Q -> string.
Variable class_values : list Number.
Variable class_names : list string.
Variable class_palette : list string.

Local Abbreviation createFeature :=
  (GswGeneric.createFeature format_double class_values class_names class_palette).
Local Abbreviation transition_fc :=
  (GswGeneric.transition_fc format_double class_values class_names class_palette).
Local Abbreviation lookup_names :=
  (GswGeneric.lookup_names format_double class_values class_names).
Local Abbreviation lookup_palette :=
  (GswGeneric.lookup_palette format_double class_values class_palette).
Local Abbreviation summarises := (GswGeneric.summarises format_double).
Local Abbreviation known_group := (GswGeneric.known_group format_double).

Lemma createFeature_summarises (names palettes : gmap string string)
    (g : Group) (f : GswGeneric.Feature) :
  lookup_names = Some names -> lookup_palette = Some palettes ->
  createFeature g = Some f <-> summarises names palettes g f.
Proof using Type.
  intros Hn Hp. unfold GswGeneric.createFeature, GswGeneric.summarises, dict_get.
  rewrite Hn, Hp. simpl. split.
  - intros H.
    destruct (g !! "transition_class_value") as [n|] eqn:E1; [|discriminate].
    simpl in H.
    destruct (names !! format format_double n) as [nm|] eqn:E2; [|discriminate].
    simpl in H.
    destruct (palettes !! format format_double n) as [pl|] eqn:E3; [|discriminate].
    simpl in H.
    destruct (g !! "sum") as [a|] eqn:E4; [|discriminate].
    injection H as <-. simpl. auto.
  - destruct f as [n nm pl a]. simpl. intros (-> & E2 & E3 & ->). simpl.
    rewrite E2. simpl. rewrite E3. reflexivity.
Qed.

(** C1.  With [names] and [palettes] the dictionaries built from the GSW
    image's class values, names and palette: whenever the feature
    collection is computed, each feature summarises its group (class
    number = the group's ['transition_class_value'], name and palette =
    the dictionary entries under the stringified class number, [area_m2] =
    the group's ['sum']); and it is computed whenever every group has its
    key and sum and the key is among the dictionaries' keys. *)
Theorem generic_features_summarise_groups
    (names palettes : gmap string string) (roi_stats : list Group) :
  lookup_names = Some names -> lookup_palette = Some palettes ->
  (forall fc, transition_fc roi_stats = Some fc ->
     Forall2 (summarises names palettes) roi_stats fc)
  /\ (Forall (known_group names palettes) roi_stats ->
      is_Some (transition_fc roi_stats)).
Proof using Type.
  intros Hn Hp. unfold GswGeneric.transition_fc. split.
  - intros fc H. apply mapM_Some_1 in H.
    eapply Forall2_impl; [exact H|]. intros g f Hgf.
    apply (createFeature_summarises names palettes g f Hn Hp), Hgf.
  - intros Hk. induction Hk as [|g gs Hg _ IH]; [eexists; reflexivity|].
    destruct Hg as (n & a & E1 & E4 & [nm E2] & [pl E3]).
    destruct IH as [fc IH].
    exists ({| GswGeneric.transition_class_number := n;
               GswGeneric.transition_class_name := nm;
               GswGeneric.transition_class_palette := pl;
               GswGeneric.area_m2 := a |} :: fc).
    apply mapM_Some_2. constructor; [|apply mapM_Some_1, IH].
    apply (createFeature_summarises names palettes _ _ Hn Hp).
    repeat split; assumption.
Qed.
End Generic.

Lemma generic_features_summarise_groups_witness :
  exists names palettes fc,
    GswGeneric.transition_fc (fun _ => "") documented_values documented_names
      documented_palette sample_groups = Some fc
    /\ Forall2 (GswGeneric.summarises (fun _ => "") names palettes) sample_groups fc
    /\ GswGeneric.transition_class_name <$> fc
       = ["Lost Permanent"; "Permanent Water"; "New Permanent"].
Proof.
  pose (names := default ∅
    (GswGeneric.lookup_names (fun _ => "") documented_values documented_names)).
  pose (palettes := default ∅
    (GswGeneric.lookup_palette (fun _ => "") documented_values documented_palette)).
  pose (fc := default []
    (GswGeneric.transition_fc (fun _ => "") documented_values documented_names
       documented_palette sample_groups)).
  assert (Hfc : GswGeneric.transition_fc (fun _ => "") documented_values
                  documented_names documented_palette sample_groups = Some fc)
    by (vm_compute; reflexivity).
  exists names, palettes, fc. split; [exact Hfc|]. split.
  - apply (generic_features_summarise_groups (fun _ => "") documented_values
             documented_names documented_palette names palettes sample_groups);
      [vm_compute; reflexivity | vm_compute; reflexivity | exact Hfc].
  - vm_compute. reflexivity.
Defined.

(** *** The robust script *)

Lemma toInt_Int (z : Z) :
  INT32_MIN <= z <= INT32_MAX -> toInt (Int z) = z.
Proof. unfold toInt, clamp_int32. lia. Qed.

Lemma toInt_Int_range (z : Z) :
  in_class_range (toInt (Int z)) <-> in_class_range z.
Proof.
  unfold GswRobust.in_class_range, toInt, clamp_int32, INT32_MIN, INT32_MAX. lia.
Qed.

Lemma toInt_Int_in_range (z : Z) : in_class_range z -> toInt (Int z) = z.
Proof.
  unfold GswRobust.in_class_range. intros H. apply toInt_Int.
  unfold INT32_MIN, INT32_MAX. lia.
Qed.

Lemma class_lists_get (n : Z) :
  in_class_range n ->
  list_get GswRobust.class_names n = Some (table_name n)
  /\ list_get GswRobust.class_colors n = Some (table_color n)
  /\ GswRobust.class_names !! Z.to_nat n = Some (table_name n)
  /\ GswRobust.class_colors !! Z.to_nat n = Some (table_color n).
Proof.
  unfold GswRobust.in_class_range. intros H.
  assert (Hk : exists k : nat, n = Z.of_nat k /\ (k <= 10)%nat)
    by (exists (Z.to_nat n); lia).
  destruct Hk as (k & -> & Hk).
  do 11 (destruct k as [|k]; [repeat split; reflexivity|]). lia.
Qed.

Lemma valid_in_class_range (n : Z) :
  (0 <=? n) && (n <=? 10) = true <-> in_class_range n.
Proof. unfold GswRobust.in_class_range. rewrite andb_true_iff, !Z.leb_le. tauto. Qed.

(** What [createFeature] computes for a group that has its key. *)
Lemma robust_createFeature_eq (g : Group) (v : Number) :
  g !! "transition_class_value" = Some v ->
  GswRobust.createFeature g =
    Some {| GswRobust.transition_class_number := toInt v;
            GswRobust.transition_class_name := table_name (toInt v);
            GswRobust.transition_class_palette := table_color (toInt v);
            GswRobust.area_km2 :=
              divide (default (Int 0) (g !! "sum")) ONE_MILLION |}.
Proof.
  intros Hv. unfold GswRobust.createFeature, dict_get, dict_get_default.
  rewrite Hv. simpl. unfold GswRobust.table_name, GswRobust.table_color.
  destruct ((0 <=? toInt v) && (toInt v <=? 10)) eqn:E; [|reflexivity].
  apply valid_in_class_range in E.
  destruct (class_lists_get _ E) as (-> & -> & _). simpl.
  unfold GswRobust.table_name, GswRobust.table_color.
  apply valid_in_class_range in E. rewrite E. reflexivity.
Qed.

(** C9.  Robust script: on every group dictionary (a dictionary with the
    integer group key ['transition_class_value']) [createFeature] returns a
    feature.  For a key outside 0..10 its name is ['Unknown'] and its
    palette ['#999999'], and no list is indexed; for a key inside 0..10 they
    are the entries of [class_names] and [class_colors] at that index; the
    area is the group's ['sum'] over 1e6, and 0 when the group has no
    ['sum']. *)
Theorem robust_createFeature_total (g : Group) (z : Z) :
  g !! "transition_class_value" = Some (Int z) ->
  exists f,
    GswRobust.createFeature g = Some f
    /\ (in_class_range z ->
          GswRobust.transition_class_number f = z
          /\ GswRobust.class_names !! Z.to_nat z
             = Some (GswRobust.transition_class_name f)
          /\ GswRobust.class_colors !! Z.to_nat z
             = Some (GswRobust.transition_class_palette f))
    /\ (~ in_class_range z ->
          GswRobust.transition_class_name f = "Unknown"
          /\ GswRobust.transition_class_palette f = "#999999")
    /\ (g !! "sum" = None -> (to_Q (GswRobust.area_km2 f) == 0)%Q)
    /\ (forall a, g !! "sum" = Some a ->
          GswRobust.area_km2 f = divide a ONE_MILLION).
Proof.
  intros Hz. eexists. split; [apply (robust_createFeature_eq g _ Hz)|].
  cbn [GswRobust.transition_class_number GswRobust.transition_class_name
       GswRobust.transition_class_palette GswRobust.area_km2].
  split; [|split; [|split]].
  - intros Hr. rewrite (toInt_Int_in_range z Hr).
    destruct (class_lists_get z Hr) as (_ & _ & -> & ->). auto.
  - intros Hr. rewrite <- toInt_Int_range, <- valid_in_class_range in Hr.
    unfold GswRobust.table_name, GswRobust.table_color.
    destruct ((0 <=? toInt (Int z)) && (toInt (Int z) <=? 10)); [congruence|].
    auto.
  - intros ->. reflexivity.
  - intros a ->. reflexivity.
Qed.

Lemma robust_createFeature_total_witness :
  exists f,
    GswRobust.createFeature (<["transition_class_value" := Int 11]> ∅) = Some f
    /\ GswRobust.transition_class_name f = "Unknown"
    /\ (to_Q (GswRobust.area_km2 f) == 0)%Q.
Proof.
  assert (Hkey : (<["transition_class_value" := Int 11]> ∅ : Group)
                   !! "transition_class_value" = Some (Int 11))
    by (vm_compute; reflexivity).
  destruct (robust_createFeature_total _ 11 Hkey)
    as (f & Hf & _ & Hout & Hno & _).
  exists f. split; [exact Hf|]. split.
  - apply Hout. unfold GswRobust.in_class_range. lia.
  - apply Hno. vm_compute. reflexivity.
Defined.

(** Outside the group dictionaries: without the group key the lookup of
    the key is an error; a fractional key is cast to an integer first. *)
Example robust_createFeature_without_key :
  GswRobust.createFeature (<["sum" := Double 5]> ∅) = None.
Proof. vm_compute. reflexivity. Qed.

Example robust_createFeature_fractional_key :
  GswRobust.transition_class_name
    <$> GswRobust.createFeature (<["transition_class_value" := Double (21 # 2)]> ∅)
  = Some "Ephemeral Seasonal".
Proof. vm_compute. reflexivity. Qed.

(** A class the dataset metadata does not list: the generic script's lookup
    fails, the robust script names it ['Unknown']. *)
Example unlisted_class :
  GswGeneric.transition_fc (fun _ => "") documented_values documented_names
    documented_palette [group 11 100] = None
  /\ map GswRobust.transition_class_name <$> GswRobust.transition_fc [group 11 100]
     = Some ["Unknown"].
Proof. split; vm_compute; reflexivity. Qed.

(** *** The two scripts on the same reduction output *)

Lemma by_area_desc_total : Total GswRobust.by_area_desc.
Proof.
  intros f1 f2. unfold GswRobust.by_area_desc.
  destruct (Qlt_le_dec (to_Q (GswRobust.area_km2 f1)) (to_Q (GswRobust.area_km2 f2)))
    as [H|H]; [right; apply Qlt_le_weak, H | left; exact H].
Qed.

Section Variants.
Variable format_double : Q -> string.
Variable class_values : list Number.
Variable class_names : list string.
Variable class_palette : list string.

Local Abbreviation generic_createFeature :=
  (GswGeneric.createFeature format_double class_values class_names class_palette).
Local Abbreviation generic_transition_fc :=
  (GswGeneric.transition_fc format_double class_values class_names class_palette).

Lemma generic_createFeature_reads (g : Group) (f : GswGeneric.Feature) :
  generic_createFeature g = Some f ->
  g !! "transition_class_value" = Some (GswGeneric.transition_class_number f)
  /\ g !! "sum" = Some (GswGeneric.area_m2 f).
Proof using Type.
  unfold GswGeneric.createFeature, dict_get. intros H.
  destruct (g !! "transition_class_value") as [n|]; [|discriminate]. simpl in H.
  destruct (GswGeneric.lookup_names _ _ _) as [names|]; [|discriminate]. simpl in H.
  destruct (names !! _) as [nm|]; [|discriminate]. simpl in H.
  destruct (GswGeneric.lookup_palette _ _ _) as [palettes|]; [|discriminate].
  simpl in H.
  destruct (palettes !! _) as [pl|]; [|discriminate]. simpl in H.
  destruct (g !! "sum") as [a|]; [|discriminate].
  injection H as <-. auto.
Qed.

Lemma corresponds_of_group (g : Group) (z : Z)
    (f : GswGeneric.Feature) (r : GswRobust.Feature) :
  g !! "transition_class_value" = Some (Int z) ->
  INT32_MIN <= z <= INT32_MAX ->
  generic_createFeature g = Some f -> GswRobust.createFeature g = Some r ->
  corresponds f r.
Proof using Type.
  intros Hz Hr Hf Hrob.
  apply generic_createFeature_reads in Hf as [Hn Ha].
  rewrite (robust_createFeature_eq g _ Hz), Ha in Hrob.
  injection Hrob as <-. unfold corresponds.
  cbn [GswRobust.transition_class_number GswRobust.transition_class_name
       GswRobust.transition_class_palette GswRobust.area_km2].
  change (clamp_int32 z) with (toInt (Int z)).
  rewrite (toInt_Int z Hr). repeat split. congruence.
Qed.

(** C4.  On the same groups (integer keys, pairwise distinct) for which
    both scripts compute a feature collection: a robust feature and a
    generic feature with the same class number have [area_km2] =
    [area_m2] / 1e6; and the robust collection is the generic one, feature
    by feature, converted to km2 and named from the hard-coded table,
    then filtered to the strictly positive areas and sorted by area,
    largest first. *)
Theorem gsw_variants_agree (groups : list Group)
    (fg : list GswGeneric.Feature) (fr : list GswRobust.Feature) :
  distinct_integer_classes groups ->
  generic_transition_fc groups = Some fg ->
  GswRobust.transition_fc groups = Some fr ->
  (forall f r, f ∈ fg -> r ∈ fr ->
     GswGeneric.transition_class_number f
       = Int (GswRobust.transition_class_number r) ->
     GswRobust.area_km2 r = divide (GswGeneric.area_m2 f) ONE_MILLION)
  /\ exists converted : list GswRobust.Feature,
       Forall2 corresponds fg converted
       /\ fr ≡ₚ List.filter GswRobust.positive_area converted
       /\ Sorted GswRobust.by_area_desc fr
       /\ Forall (fun r => (0 < to_Q (GswRobust.area_km2 r))%Q) fr.
Proof using Type.
  intros (zs & Hzs & Hnd) Hg Hr.
  unfold GswGeneric.transition_fc in Hg. apply mapM_Some_1 in Hg.
  unfold GswRobust.transition_fc in Hr.
  replace (if list_truthy groups then groups else []) with groups in Hr
    by (destruct groups; reflexivity).
  destruct (mapM GswRobust.createFeature groups) as [converted|] eqn:Hall;
    [|discriminate].
  simpl in Hr. injection Hr as <-. apply mapM_Some_1 in Hall.
  assert (Hcorr : Forall2 corresponds fg converted).
  { apply Forall2_same_length_lookup. split.
    - rewrite <- (Forall2_length _ _ _ Hg). apply (Forall2_length _ _ _ Hall).
    - intros i f r Hf Hr.
      destruct (Forall2_lookup_r _ _ _ _ _ Hg Hf) as (g & Hgi & Hgf).
      destruct (Forall2_lookup_l _ _ _ _ _ Hzs Hgi) as (z & Hzi & Hz & Hrange).
      destruct (Forall2_lookup_l _ _ _ _ _ Hall Hgi) as (r' & Hr' & Hgr).
      assert (r' = r) as -> by congruence.
      eapply corresponds_of_group; eassumption. }
  assert (Hperm : merge_sort GswRobust.by_area_desc
                    (List.filter GswRobust.positive_area converted)
                  ≡ₚ List.filter GswRobust.positive_area converted)
    by apply merge_sort_Permutation.
  split.
  - intros f r Hf Hr Hclass.
    rewrite Hperm in Hr. apply list_elem_of_In, List.filter_In in Hr as [Hr _].
    apply list_elem_of_In, list_elem_of_lookup in Hr as [j Hj].
    apply list_elem_of_lookup in Hf as [i Hi].
    destruct (Forall2_lookup_r _ _ _ _ _ Hcorr Hj) as (f' & Hf' & Hc).
    destruct Hc as (Hc1 & Hc2 & _).
    (* the groups behind [f] and [f'] have the same key *)
    destruct (Forall2_lookup_r _ _ _ _ _ Hg Hi) as (g & Hgi & Hgf).
    destruct (Forall2_lookup_r _ _ _ _ _ Hg Hf') as (g' & Hgj & Hgf').
    destruct (Forall2_lookup_l _ _ _ _ _ Hzs Hgi) as (z & Hzi & Hz & _).
    destruct (Forall2_lookup_l _ _ _ _ _ Hzs Hgj) as (z' & Hzj & Hz' & _).
    apply generic_createFeature_reads in Hgf as [Hn _].
    apply generic_createFeature_reads in Hgf' as [Hn' _].
    assert (z = z') by congruence. subst z'.
    assert (i = j) by (eapply NoDup_lookup; eassumption). subst j.
    assert (f' = f) as -> by congruence. exact Hc2.
  - exists converted. split; [exact Hcorr|]. split; [exact Hperm|]. split.
    + apply (@Sorted_merge_sort _ _ _ by_area_desc_total).
    + apply List.Forall_forall. intros r Hr.
      apply list_elem_of_In in Hr. rewrite Hperm in Hr.
      apply list_elem_of_In, List.filter_In in Hr as [_ Hr].
      unfold GswRobust.positive_area, gt in Hr.
      apply negb_true_iff in Hr.
      destruct (Qlt_le_dec 0 (to_Q (GswRobust.area_km2 r))) as [H|H]; [exact H|].
      apply Qle_bool_iff in H. congruence.
Qed.
End Variants.

Lemma sample_groups_distinct : distinct_integer_classes sample_groups.
Proof.
  exists [3; 1; 2]. split.
  - repeat constructor; vm_compute; congruence.
  - apply (bool_decide_unpack _). vm_compute. exact I.
Qed.

Lemma gsw_variants_agree_witness :
  exists fg fr,
    GswGeneric.transition_fc (fun _ => "") documented_values documented_names
      documented_palette sample_groups = Some fg
    /\ GswRobust.transition_fc sample_groups = Some fr
    /\ GswRobust.transition_class_number <$> fr = [2; 3]
    /\ Sorted GswRobust.by_area_desc fr.
Proof.
  pose (fg := default []
    (GswGeneric.transition_fc (fun _ => "") documented_values documented_names
       documented_palette sample_groups)).
  pose (fr := default [] (GswRobust.transition_fc sample_groups)).
  assert (Hg : GswGeneric.transition_fc (fun _ => "") documented_values
                 documented_names documented_palette sample_groups = Some fg)
    by (vm_compute; reflexivity).
  assert (Hr : GswRobust.transition_fc sample_groups = Some fr)
    by (vm_compute; reflexivity).
  exists fg, fr. split; [exact Hg|]. split; [exact Hr|].
  split; [vm_compute; reflexivity|].
  destruct (gsw_variants_agree (fun _ => "") documented_values documented_names
              documented_palette sample_groups fg fr
              sample_groups_distinct Hg Hr)
    as (_ & converted & _ & _ & Hs & _).
  exact Hs.
Defined.

End GswFacts.

Module ChirpsFacts.
Import Imagery Chirps.

Lemma filter_filter_andb {A : Type} (f g : A -> bool) (l : list A) :
  List.filter f (List.filter g l) = List.filter (fun x => g x && f x) l.
Proof.
  induction l as [|x l IH]; [reflexivity|]. simpl.
  destruct (g x); simpl; [destruct (f x)|]; rewrite IH; reflexivity.
Qed.

Lemma omap_map_ext {A B C : Type} (f : B -> option C) (g : A -> B)
    (h : A -> option C) (l : list A) :
  (forall a, f (g a) = h a) -> omap f (map g l) = omap h l.
Proof.
  intros H. induction l as [|a l IH]; [reflexivity|].
  change (omap f (map g (a :: l)))
    with (match f (g a) with
          | Some c => c :: omap f (map g l)
          | None => omap f (map g l)
          end).
  rewrite H, IH. reflexivity.
Qed.

Lemma omap_Forall2 {A B : Type} (f : A -> option B) (l : list A) (k : list B) :
  Forall2 (fun a b => f a = Some b) l k -> omap f l = k.
Proof.
  induction 1 as [|a b l k Hab _ IH]; [reflexivity|].
  change (omap f (a :: l))
    with (match f a with Some c => c :: omap f l | None => omap f l end).
  rewrite Hab, IH. reflexivity.
Qed.

(** [ee.List.sequence] lists the integers from [start] to [stop], each
    once, in increasing order. *)
Lemma List_sequence_spec (start stop : Z) :
  (forall y, In y (List_sequence start stop) <-> start <= y <= stop)
  /\ List.NoDup (List_sequence start stop)
  /\ Sorted Z.lt (List_sequence start stop).
Proof.
  unfold List_sequence. split; [|split].
  - intros y. rewrite List.in_map_iff. split.
    + intros (k & <- & Hk). apply List.in_seq in Hk. lia.
    + intros Hy. exists (Z.to_nat (y - start)). split; [lia|].
      apply List.in_seq. lia.
  - apply Finite.Injective_map_NoDup; [|apply List.seq_NoDup].
    intros a b. lia.
  - generalize (Z.to_nat (stop - start + 1)) as n. generalize 0%nat as k.
    intros k n. revert k. induction n as [|n IH]; intros k; simpl; [constructor|].
    constructor; [apply IH|].
    destruct n; simpl; constructor. lia.
Qed.

Section Baseline.
Variable cfg : Settings.
Variable AOIgeom : Geometry.
Variable dataset : ImageCollection.

(** Filtering by day of year, then by year, is filtering by [in_season]. *)
Lemma season_filter (y : Z) (i : Image) :
  Filter_dayOfYear (doy_start cfg) (doy_end cfg) i
    && Filter_calendarRange y y Year i = in_season cfg y i.
Proof using Type.
  unfold Filter_dayOfYear, Filter_calendarRange, in_season, in_window.
  destruct (date i) as [d|]; [|reflexivity]. simpl.
  rewrite Z.leb_refl.
  destruct (doy_start cfg <=? doy_end cfg),
           (doy_start cfg <=? doy d), (doy d <=? doy_end cfg),
           (Z.leb_spec y (year d)), (Z.leb_spec (year d) y),
           (Z.eqb_spec (year d) y); simpl; try reflexivity; lia.
Qed.

Lemma year_total (y : Z) (p : Pixel) :
  pixels (set (clip (sum (List.filter (Filter_calendarRange y y Year)
                                      (chirps_mam cfg AOIgeom dataset)))
                    AOIgeom) "year" y) p
  = season_total cfg AOIgeom dataset y p.
Proof using Type.
  unfold season_total, chirps_mam. simpl.
  rewrite filter_filter_andb.
  rewrite (List.filter_ext _ (in_season cfg y))
    by (intros i; apply season_filter).
  reflexivity.
Qed.

(** C2.  Whatever the settings: at every pixel the baseline image is the
    mean, over the years from [baseline_start_year] to [baseline_end_year]
    (each once), of the year's total: the sum of the daily precipitation
    images of that year with day of year in the window
    [doy_start, doy_end] (which runs over the end of the year when
    [doy_end < doy_start]), clipped to the AOI.  Where every year has a
    total at the pixel, that is the sum of the totals over the number of
    years; in general a year without a value at the pixel does not count,
    as in the platform's mean. *)
Theorem chirps_baseline_mean_of_season_totals :
  (forall p, pixels (chirps_baseline cfg AOIgeom dataset) p
             = mean_of_season_totals cfg AOIgeom dataset p)
  /\ (forall p ts,
        Forall2 (fun y t => season_total cfg AOIgeom dataset y p = Some t)
                (years cfg) ts ->
        ts <> [] ->
        pixels (chirps_baseline cfg AOIgeom dataset) p
        = Some (qsum ts / inject_Z (Z.of_nat (length (years cfg))))%Q)
  /\ (forall y, In y (years cfg)
                <-> baseline_start_year cfg <= y <= baseline_end_year cfg)
  /\ List.NoDup (years cfg).
Proof using Type.
  assert (Hmean : forall p, pixels (chirps_baseline cfg AOIgeom dataset) p
                            = mean_of_season_totals cfg AOIgeom dataset p).
  { intros p. unfold chirps_baseline, mean_of_season_totals, mean, fromImages.
    cbn [pixels composite]. unfold values_at.
    rewrite (omap_map_ext _ _ (fun y => season_total cfg AOIgeom dataset y p))
      by (intros y; apply year_total).
    reflexivity. }
  split; [exact Hmean|]. split.
  - intros p ts Hts Hne. rewrite Hmean. unfold mean_of_season_totals.
    rewrite (omap_Forall2 _ _ _ Hts), (Forall2_length _ _ _ Hts).
    destruct ts; [congruence|reflexivity].
  - unfold years.
    destruct (List_sequence_spec (baseline_start_year cfg) (baseline_end_year cfg))
      as (H1 & H2 & _).
    split; assumption.
Qed.

(** Bounding the collection to the AOI drops only images without a value
    inside the AOI, so the yearly totals are those of the whole dataset. *)
Lemma filterBounds_values_at (f : Image -> bool) (g : Geometry) (p : Pixel)
    (c : ImageCollection) :
  Forall masked_outside_footprint c -> covers g p = true ->
  values_at (List.filter f (filterBounds g c)) p = values_at (List.filter f c) p.
Proof using Type.
  intros Hc Hp. induction Hc as [|i c Hi _ IH]; [reflexivity|].
  unfold filterBounds in *. simpl.
  destruct (footprint i) as [fp|] eqn:Hfp.
  - destruct (intersects fp g) eqn:Hint; simpl.
    + destruct (f i); simpl; unfold values_at in *; simpl; rewrite IH; reflexivity.
    + assert (Hout : pixels i p = None).
      { apply (Hi fp p Hfp). unfold covers. apply bool_decide_eq_false.
        intros Hin. unfold intersects in Hint.
        assert (Hex : existsb (covers g) fp = true)
          by (apply List.existsb_exists; exists p; split;
              [apply list_elem_of_In, Hin | exact Hp]).
        congruence. }
      destruct (f i); simpl; unfold values_at in *; simpl;
        rewrite ?Hout; exact IH.
  - simpl. destruct (f i); simpl; unfold values_at in *; simpl; rewrite IH;
      reflexivity.
Qed.

Lemma season_total_whole_dataset (y : Z) (p : Pixel) :
  Forall masked_outside_footprint dataset ->
  season_total cfg AOIgeom dataset y p =
    if covers AOIgeom p then
      match values_at (List.filter (in_season cfg y) dataset) p with
      | [] => None
      | vs => Some (qsum vs)
      end
    else None.
Proof using Type.
  intros Hd. unfold season_total, chirps.
  destruct (covers AOIgeom p) eqn:Hp; [|reflexivity].
  rewrite (filterBounds_values_at _ _ _ _ Hd Hp). reflexivity.
Qed.

(** The study total has no value outside the AOI. *)
Lemma chirps_study_outside (p : Pixel) :
  covers AOIgeom p = false -> pixels (chirps_study cfg AOIgeom dataset) p = None.
Proof using Type. intros H. unfold chirps_study. simpl. rewrite H. reflexivity. Qed.

(** C3.  At every pixel: the baseline masked with the study image's mask
    has the baseline's value where the study total has a value and none
    elsewhere; the anomaly is the study total minus that masked baseline
    (the last clip changes nothing), that is [s - b] where the study total
    is [s] and the baseline [b]; so the anomaly has no value wherever the
    study total has none. *)
Theorem rainfall_anomaly_study_minus_baseline (p : Pixel) :
  let study := pixels (chirps_study cfg AOIgeom dataset) p in
  let baseline := pixels (chirps_baseline cfg AOIgeom dataset) p in
  let anomaly := pixels (rainfall_anomaly cfg AOIgeom dataset) p in
  pixels (baseline_masked cfg AOIgeom dataset) p
    = match study with Some _ => baseline | None => None end
  /\ anomaly = pixels (subtract (chirps_study cfg AOIgeom dataset)
                                (baseline_masked cfg AOIgeom dataset)) p
  /\ anomaly = match study, baseline with
               | Some s, Some b => Some (s - b)%Q
               | _, _ => None
               end
  /\ (study = None -> anomaly = None).
Proof using Type.
  intros study baseline anomaly.
  assert (Hm : pixels (baseline_masked cfg AOIgeom dataset) p
               = match study with Some _ => baseline | None => None end).
  { unfold baseline_masked, updateMask, mask. cbn [pixels composite].
    fold study. destruct study; reflexivity. }
  assert (Hs : anomaly = pixels (subtract (chirps_study cfg AOIgeom dataset)
                                          (baseline_masked cfg AOIgeom dataset)) p).
  { unfold anomaly, rainfall_anomaly, clip, subtract. cbn [pixels].
    destruct (covers AOIgeom p) eqn:Hc; [reflexivity|].
    rewrite (chirps_study_outside p Hc). reflexivity. }
  split; [exact Hm|]. split; [exact Hs|].
  assert (Ha : anomaly = match study, baseline with
                         | Some s, Some b => Some (s - b)%Q
                         | _, _ => None
                         end).
  { rewrite Hs. unfold subtract. cbn [pixels]. rewrite Hm. fold study.
    destruct study; reflexivity. }
  split; [exact Ha|]. intros Hn. rewrite Ha, Hn. reflexivity.
Qed.
End Baseline.

Lemma chirps_baseline_mean_of_season_totals_witness :
  pixels (chirps_baseline source_settings sample_aoi sample_dataset) (0, 0)
    = mean_of_season_totals source_settings sample_aoi sample_dataset (0, 0)
  /\ (exists q, mean_of_season_totals source_settings sample_aoi sample_dataset (0, 0)
                = Some q /\ (q == 15 # 2)%Q)
  /\ mean_of_season_totals source_settings sample_aoi sample_dataset (0, 1) = None
  /\ pixels (chirps_baseline winter_2000 sample_aoi sample_dataset) (0, 0)
     = mean_of_season_totals winter_2000 sample_aoi sample_dataset (0, 0)
  /\ (exists q, mean_of_season_totals winter_2000 sample_aoi sample_dataset (0, 0)
                = Some q /\ (q == 12)%Q).
Proof.
  split; [|split; [|split; [|split]]].
  - exact (proj1 (chirps_baseline_mean_of_season_totals source_settings
                    sample_aoi sample_dataset) (0, 0)).
  - eexists. split; [vm_compute; reflexivity|]. vm_compute. reflexivity.
  - vm_compute. reflexivity.
  - exact (proj1 (chirps_baseline_mean_of_season_totals winter_2000
                    sample_aoi sample_dataset) (0, 0)).
  - eexists. split; [vm_compute; reflexivity|]. vm_compute. reflexivity.
Defined.

Lemma rainfall_anomaly_study_minus_baseline_witness :
  pixels (chirps_study source_settings sample_aoi sample_dataset) (0, 1) = None
  /\ pixels (rainfall_anomaly source_settings sample_aoi sample_dataset) (0, 1) = None.
Proof.
  assert (Hs : pixels (chirps_study source_settings sample_aoi sample_dataset) (0, 1)
               = None) by (vm_compute; reflexivity).
  split; [exact Hs|].
  apply (rainfall_anomaly_study_minus_baseline source_settings sample_aoi
           sample_dataset (0, 1)), Hs.
Defined.

(** With [doy_end < doy_start] the platform's day-of-year filter wraps
    around the end of the year: day 10 passes the filter for days 300 to 60. *)
Example dayOfYear_wraps :
  Filter_dayOfYear 300 60 (daily 2000 10 5) = true
  /\ Filter_dayOfYear 300 60 (daily 2000 100 5) = false.
Proof. split; reflexivity. Qed.

Example rainfall_anomaly_sample :
  let study := {| study_start := {| year := 2001; doy := 1 |};
                  study_end := {| year := 2001; doy := 365 |};
                  baseline_start_year := 1999; baseline_end_year := 2000;
                  doy_start := 1; doy_end := 365 |} in
  exists q, pixels (rainfall_anomaly study sample_aoi sample_dataset) (0, 0) = Some q
            /\ (q == -53)%Q.
Proof. eexists. split; vm_compute; reflexivity. Qed.

End ChirpsFacts.

Module DenotationFacts.
Import Imagery Denotation.

Lemma mapM_map_Some {A B C : Type} (f : B -> option C) (g : A -> B)
    (h : A -> C) (l : list A) :
  (forall a, f (g a) = Some (h a)) -> mapM f (map g l) = Some (map h l).
Proof.
  intros H. apply mapM_Some_2. induction l; simpl; constructor; auto.
Qed.

Lemma mapM_cons_option {A B : Type} (f : A -> option B) (a : A) (l : list A) :
  mapM f (a :: l) = x ← f a; k ← mapM f l; Some (x :: k).
Proof. reflexivity. Qed.

Lemma eval_map (env : Env) (l : Graph.Node) (x : string) (body : Graph.Node) :
  eval env (Graph.Call "map" [l; Graph.Fun x body]) =
  match eval env l with
  | Some (VList vs) => VList <$> mapM (fun v => eval (bind_var env x v) body) vs
  | _ => None
  end.
Proof. reflexivity. Qed.

Lemma eval_call (env : Env) (fn : string) (args : list Graph.Node) :
  String.eqb fn "map" = false ->
  eval env (Graph.Call fn args) = mapM (eval env) args ≫= primitive fn.
Proof.
  intros H. cbn [eval].
  destruct args as [|a [|b [|c args]]]; try reflexivity;
    destruct b; try reflexivity; rewrite H; reflexivity.
Qed.

Section Chirps.
Variable cfg : Chirps.Settings.
Variable AOIgeom : Geometry.
Variable dataset : ImageCollection.

Local Abbreviation env := (script_env cfg AOIgeom dataset).

Lemma eval_chirps_study :
  eval env Graph.Chirps.chirps_study
  = Some (VImage (Chirps.chirps_study cfg AOIgeom dataset)).
Proof using Type. reflexivity. Qed.

Lemma eval_chirps_baseline :
  eval env Graph.Chirps.chirps_baseline
  = Some (VImage (Chirps.chirps_baseline cfg AOIgeom dataset)).
Proof using Type.
  pose (year_image := fun y : Z =>
    set (clip (sum (List.filter (Filter_calendarRange y y Year)
                                (Chirps.chirps_mam cfg AOIgeom dataset)))
              AOIgeom) "year" y).
  unfold Graph.Chirps.chirps_baseline, Graph.method.
  rewrite eval_call by reflexivity.
  change (mapM (eval env) [?c]) with (x ← eval env c; Some [x]).
  rewrite eval_call by reflexivity.
  change (mapM (eval env) [?c]) with (x ← eval env c; Some [x]).
  rewrite eval_map.
  change (eval env Graph.Chirps.years)
    with (Some (VList (map VNum (Chirps.years cfg)))).
  cbv iota beta.
  rewrite (mapM_map_Some _ VNum (fun y => VImage (year_image y)))
    by (intros y; reflexivity).
  cbn [fmap option_fmap option_map mbind option_bind primitive].
  rewrite (mapM_map_Some as_image (fun y => VImage (year_image y)) year_image)
    by reflexivity.
  reflexivity.
Qed.

(** The request graph of the anomaly evaluates to the image of the
    pixelwise embedding: the two embeddings of lines 117-152 agree. *)
Lemma eval_rainfall_anomaly :
  eval env Graph.Chirps.rainfall_anomaly
  = Some (VImage (Chirps.rainfall_anomaly cfg AOIgeom dataset)).
Proof using Type.
  assert (Hmask : eval env (Graph.method Graph.Chirps.chirps_study "mask" [])
                  = Some (VImage (mask (Chirps.chirps_study cfg AOIgeom dataset)))).
  { unfold Graph.method. rewrite eval_call by reflexivity.
    rewrite mapM_cons_option, eval_chirps_study. reflexivity. }
  assert (Hbm : eval env Graph.Chirps.baseline_masked
                = Some (VImage (Chirps.baseline_masked cfg AOIgeom dataset))).
  { unfold Graph.Chirps.baseline_masked. unfold Graph.method at 1.
    rewrite eval_call by reflexivity.
    rewrite !mapM_cons_option, eval_chirps_baseline, Hmask. reflexivity. }
  unfold Graph.Chirps.rainfall_anomaly, Graph.method.
  rewrite eval_call by reflexivity. rewrite mapM_cons_option.
  rewrite eval_call by reflexivity.
  rewrite !mapM_cons_option, eval_chirps_study, Hbm. reflexivity.
Qed.
End Chirps.

End DenotationFacts.

Module GraphFacts.
Import Graph.

(** C6, as written, fails: [computeAnomaly] of the NDVI script branches
    twice with [ee.Algorithms.If], on tests [bandNames().size().gt(0)], so
    the compositions are not all expressed purely by the four primitives. *)
Lemma computeAnomaly_branches :
  List.filter conditional (calls Ndvi.computeAnomaly)
    = ["ee.Algorithms.If"; "ee.Algorithms.If"]
  /\ In "gt" (calls Ndvi.computeAnomaly)
  /\ ~ Forall (fun c => purely_aggregation c.2 = true) compositions.
Proof.
  split; [vm_compute; reflexivity|]. split; [vm_compute; tauto|].
  intros H. rewrite Forall_forall in H.
  specialize (H ("computeAnomaly", Ndvi.computeAnomaly)).
  assert (Hin : ("computeAnomaly", Ndvi.computeAnomaly) ∈ compositions)
    by (unfold compositions; set_solver).
  specialize (H Hin). vm_compute in H. discriminate H.
Qed.

(** C6, amended.  The CHIRPS compositions (baseline, anomaly) and the NDVI
    mean-anomaly compositions call, besides selections (filters, select,
    clip, mask, set, rename, the map over the years), only [sum], [mean],
    [subtract] and [updateMask], and never branch; in every composition,
    [computeAnomaly] included, the only calls that are neither of these are
    the conditional [ee.Algorithms.If], the tests [bandNames], [size], [gt]
    it branches on, and the reads [get], [first], [ee.Filter.eq], [ee.Image]
    of [computeAnomaly], whose one computation is a [subtract]. *)
Theorem compositions_use_aggregation_primitives :
  Forall (fun c => c.1 <> "computeAnomaly" -> purely_aggregation c.2 = true)
    compositions
  /\ Forall (fun c => c.1 <> "computeAnomaly" ->
                      List.filter conditional (calls c.2) = []) compositions
  /\ List.filter aggregation_primitive (calls Ndvi.computeAnomaly)
     = ["subtract"]
  /\ List.filter (fun fn => negb (aggregation_primitive fn || selection fn))
       (calls Ndvi.computeAnomaly)
     = ["ee.Image"; "ee.Algorithms.If"; "gt"; "size"; "bandNames";
        "ee.Algorithms.If"; "gt"; "size"; "bandNames"; "first"; "ee.Filter.eq";
        "get"; "first"; "ee.Filter.eq"; "get"; "get"; "get"; "get"].
Proof.
  split; [|split; [|split]].
  - apply Forall_forall. intros c Hc. unfold compositions in Hc.
    rewrite !elem_of_cons, elem_of_nil in Hc.
    destruct Hc as [->|[->|[->|[->|[->|[]]]]]]; simpl; intros H;
      try congruence; vm_compute; reflexivity.
  - apply Forall_forall. intros c Hc. unfold compositions in Hc.
    rewrite !elem_of_cons, elem_of_nil in Hc.
    destruct Hc as [->|[->|[->|[->|[->|[]]]]]]; simpl; intros H;
      try congruence; vm_compute; reflexivity.
  - vm_compute. reflexivity.
  - vm_compute. reflexivity.
Qed.

End GraphFacts.

(* ===================================================================== *)
(** * Part III: further properties of the scripts                         *)
(* ===================================================================== *)

Module JsStringMore.
Import JsString JsStringFacts.

Lemma slugifyName_chars (s : jsstring) : Forall slug_char (slugifyName s).
Proof.
  unfold slugifyName, remove_unsafe. apply List.Forall_forall. intros c Hc.
  apply List.filter_In in Hc as [_ Hc]. apply keeps_slug_char, Hc.
Qed.

Lemma slug_char_keeps (c : N) : slug_char c -> keeps c = true.
Proof.
  unfold slug_char, keeps, is_word_char. intros [H|[H|[H|H]]].
  - apply Is_true_true in H. rewrite H. reflexivity.
  - apply Is_true_true in H. rewrite H. apply orb_true_iff. left.
    apply orb_true_iff. left. apply orb_true_r.
  - subst c. rewrite !orb_true_iff. left. right. reflexivity.
  - subst c. apply orb_true_r.
Qed.

Lemma trimStart_no_ws (s : jsstring) :
  Forall (fun c => is_whitespace c = false) s -> trimStart s = s.
Proof. destruct 1 as [|c s Hc _]; simpl; [reflexivity|]. rewrite Hc. reflexivity. Qed.

Lemma trimEnd_no_ws (s : jsstring) :
  Forall (fun c => is_whitespace c = false) s -> trimEnd s = s.
Proof.
  induction 1 as [|c s Hc _ IH]; simpl; [reflexivity|].
  rewrite IH, Hc. destruct s; reflexivity.
Qed.

Lemma replace_ws_runs_no_ws (s : jsstring) (b : bool) :
  Forall (fun c => is_whitespace c = false) s -> replace_ws_runs_from b s = s.
Proof.
  intros H. revert b. induction H as [|c s Hc _ IH]; intros b; simpl; [reflexivity|].
  rewrite Hc, IH. reflexivity.
Qed.

Lemma remove_unsafe_safe (s : jsstring) :
  Forall slug_char s -> remove_unsafe s = s.
Proof.
  induction 1 as [|c s Hc _ IH]; [reflexivity|].
  unfold remove_unsafe in *. simpl. rewrite (slug_char_keeps c Hc), IH. reflexivity.
Qed.

Lemma slugifyName_safe_id (s : jsstring) : Forall slug_char s -> slugifyName s = s.
Proof.
  intros H.
  assert (Hw : Forall (fun c => is_whitespace c = false) s)
    by (eapply List.Forall_impl; [|exact H]; apply slug_char_not_whitespace).
  unfold slugifyName, trim, replace_ws_runs.
  rewrite (trimStart_no_ws s Hw), (trimEnd_no_ws s Hw),
    (replace_ws_runs_no_ws s false Hw).
  apply remove_unsafe_safe, H.
Qed.

(** X1.  The strings [slugifyName] leaves unchanged are exactly those made
    of letters, digits, underscores and hyphens; so slugifying twice is
    slugifying once. *)
Theorem slugifyName_idempotent (s : jsstring) :
  (slugifyName s = s <-> Forall slug_char s)
  /\ slugifyName (slugifyName s) = slugifyName s.
Proof.
  split.
  - split; [intros <-; apply slugifyName_chars | apply slugifyName_safe_id].
  - apply slugifyName_safe_id, slugifyName_chars.
Qed.

Lemma length_trimStart (s : jsstring) : (length (trimStart s) <= length s)%nat.
Proof.
  induction s as [|c s IH]; simpl; [lia|].
  destruct (is_whitespace c); simpl; lia.
Qed.

Lemma length_trimEnd (s : jsstring) : (length (trimEnd s) <= length s)%nat.
Proof.
  induction s as [|c s IH]; simpl; [lia|].
  remember (trimEnd s) as t eqn:E.
  destruct t; [destruct (is_whitespace c)|]; simpl in *; lia.
Qed.

Lemma length_replace_ws_runs (s : jsstring) (b : bool) :
  (length (replace_ws_runs_from b s) <= length s)%nat.
Proof.
  revert b. induction s as [|c s IH]; intros b; simpl; [lia|].
  pose proof (IH true). pose proof (IH false).
  destruct (is_whitespace c); [destruct b|]; simpl; lia.
Qed.

Lemma trimStart_all_ws (s : jsstring) :
  forallb is_whitespace s = true -> trimStart s = [].
Proof.
  induction s as [|c s IH]; simpl; [reflexivity|].
  intros H. apply andb_true_iff in H as [Hc Hs]. rewrite Hc. apply IH, Hs.
Qed.

(** X2.  A slug is never longer than the name it is made from, and a name
    of whitespace only (the empty name included) has the empty slug. *)
Theorem slugifyName_length (s : jsstring) :
  (length (slugifyName s) <= length s)%nat
  /\ (forallb is_whitespace s = true -> slugifyName s = []).
Proof.
  split.
  - unfold slugifyName, remove_unsafe, replace_ws_runs, trim.
    pose proof (List.filter_length_le keeps
      (replace_ws_runs_from false (trimEnd (trimStart s)))) as H1.
    pose proof (length_replace_ws_runs (trimEnd (trimStart s)) false) as H2.
    pose proof (length_trimEnd (trimStart s)) as H3.
    pose proof (length_trimStart s) as H4. lia.
  - intros H. unfold slugifyName, trim. rewrite (trimStart_all_ws s H).
    reflexivity.
Qed.

Lemma slugifyName_length_witness :
  slugifyName (of_ascii_string "   ") = [].
Proof.
  apply (slugifyName_length (of_ascii_string "   ")). reflexivity.
Defined.

End JsStringMore.

Module GswRobustNamesFacts.
Import JsString JsStringFacts JsStringMore GswRobustNames.

Lemma keeps_all_chars (s : jsstring) :
  forallb keeps s = true -> Forall slug_char s.
Proof.
  intros H. apply List.Forall_forall. intros c Hc.
  apply keeps_slug_char. rewrite List.forallb_forall in H. apply H, Hc.
Qed.

Lemma digits_keeps (d : Decimal.uint) :
  forallb keeps (of_ascii_string (NilEmpty.string_of_uint d)) = true.
Proof.
  unfold of_ascii_string.
  induction d; simpl; rewrite ?IHd; reflexivity.
Qed.

Lemma decimal_chars (z : Z) : Forall slug_char (decimal z).
Proof.
  apply keeps_all_chars. unfold decimal.
  pose proof digits_keeps as Hd. unfold of_ascii_string in *.
  destruct (Z.to_int z) as [d|d]; simpl.
  - destruct d; try apply Hd. reflexivity.
  - destruct d; simpl; first [reflexivity | apply Hd].
Qed.

Lemma all_kept (l : list jsstring) :
  Forall (Forall slug_char) l -> forallb (forallb keeps) l = true.
Proof.
  intros H. apply List.forallb_forall. intros s Hs.
  apply List.forallb_forall. intros c Hc. apply slug_char_keeps.
  rewrite List.Forall_forall in H. specialize (H s Hs).
  rewrite List.Forall_forall in H. apply H, Hc.
Qed.

Lemma lit_chars (s : string) :
  forallb keeps (lit s) = true -> Forall slug_char (lit s).
Proof. apply keeps_all_chars. Qed.

Lemma output_prefix_chars (cfg : Settings) : Forall slug_char (output_prefix cfg).
Proof.
  unfold output_prefix.
  destruct (use_custom_aoi cfg); apply Forall_app; split;
    solve [apply lit_chars; reflexivity | apply slugifyName_chars].
Qed.

Section Printing.
Variable to_string_other : Q -> jsstring.

Lemma safe_number_chars (q : Q) :
  is_Some (safe_integer q) ->
  Forall slug_char (number_to_string to_string_other q).
Proof using Type.
  intros [z Hz]. unfold number_to_string. rewrite Hz. apply decimal_chars.
Qed.

Lemma years_suffix_chars (cfg : Settings) :
  Forall slug_char (years_suffix to_string_other cfg)
  <-> Forall slug_char (number_to_string to_string_other (start_year cfg))
      /\ Forall slug_char (number_to_string to_string_other (end_year cfg)).
Proof using Type.
  unfold years_suffix. rewrite !Forall_app. split.
  - intros (H1 & _ & H2). split; assumption.
  - intros [H1 H2]. split; [exact H1|]. split; [|exact H2].
    apply lit_chars. reflexivity.
Qed.

(** X3.  The descriptions of the five export requests of the robust
    script: no two of them are equal, whatever the names and the years;
    they consist of letters, digits, underscores and hyphens only exactly
    when the two years, as the concatenation prints them, do, whatever the
    AOI or country name; and the years do when they are safe integers (as
    1984 and 2021 are), which print by their decimal digits. *)
Theorem export_descriptions_safe_distinct (cfg : Settings) :
  List.NoDup (export_descriptions to_string_other cfg)
  /\ (Forall (Forall slug_char) (export_descriptions to_string_other cfg)
      <-> Forall slug_char (number_to_string to_string_other (start_year cfg))
          /\ Forall slug_char (number_to_string to_string_other (end_year cfg)))
  /\ (is_Some (safe_integer (start_year cfg)) ->
      is_Some (safe_integer (end_year cfg)) ->
      Forall (Forall slug_char) (export_descriptions to_string_other cfg)).
Proof using Type.
  assert (Hiff : Forall (Forall slug_char) (export_descriptions to_string_other cfg)
                 <-> Forall slug_char (number_to_string to_string_other (start_year cfg))
                     /\ Forall slug_char (number_to_string to_string_other (end_year cfg))).
  { unfold export_descriptions. split.
    - intros H. apply Forall_cons in H as [_ H]. apply Forall_cons in H as [_ H].
      apply Forall_cons in H as [H _].
      apply Forall_app in H as [_ H]. apply Forall_app in H as [_ H].
      apply years_suffix_chars, H.
    - intros [H1 H2].
      repeat (apply Forall_cons; split); try apply Forall_nil_2;
        repeat (apply Forall_app; split);
        solve [apply output_prefix_chars | exact H1 | exact H2
              | apply lit_chars; reflexivity]. }
  split; [|split].
  - unfold export_descriptions.
    generalize (years_suffix to_string_other cfg) as ys.
    generalize (output_prefix cfg) as prefix. intros prefix ys.
    repeat (apply List.NoDup_cons); try apply List.NoDup_nil; simpl;
      intros H; repeat (destruct H as [H|H]); try contradiction;
      apply app_inv_head in H; vm_compute in H; discriminate H.
  - exact Hiff.
  - intros H1 H2. apply Hiff.
    split; apply safe_number_chars; assumption.
Qed.
End Printing.

Lemma export_descriptions_safe_distinct_witness :
  Forall (Forall slug_char) (export_descriptions sample_printing source_settings).
Proof.
  assert (H1 : is_Some (safe_integer (start_year source_settings)))
    by (exists 1984; reflexivity).
  assert (H2 : is_Some (safe_integer (end_year source_settings)))
    by (exists 2021; reflexivity).
  exact (proj2 (proj2 (export_descriptions_safe_distinct sample_printing
                         source_settings)) H1 H2).
Defined.

Example export_descriptions_sample :
  export_descriptions sample_printing source_settings
  = [lit "GSW_AOI_Inland_bassin_Transition_Summary_km2";
     lit "GSW_AOI_Inland_bassin_Water_Mask_gt90";
     lit "GSW_AOI_Inland_bassin_Water_Occurrence_1984_2021";
     lit "GSW_AOI_Inland_bassin_Change_Intensity_1984_2021";
     lit "GSW_AOI_Inland_bassin_Transition_Classes_1984_2021"].
Proof. vm_compute. reflexivity. Qed.

(** With a year that is not a safe integer the description takes the
    characters of its printing: '+' for 1e21, '.' for 1984.5; neither is
    kept by [slugifyName]. *)
Example export_descriptions_unsafe_year :
  let big := {| country_name := lit "Spain"; use_custom_aoi := true;
                aoi_name := lit "AOI_Inland_bassin";
                start_year := inject_Z (10 ^ 21); end_year := 2021 |} in
  let half := {| country_name := lit "Spain"; use_custom_aoi := true;
                 aoi_name := lit "AOI_Inland_bassin";
                 start_year := 3969 # 2; end_year := 2021 |} in
  export_descriptions sample_printing big !! 2%nat
    = Some (lit "GSW_AOI_Inland_bassin_Water_Occurrence_1e+21_2021")
  /\ export_descriptions sample_printing half !! 2%nat
     = Some (lit "GSW_AOI_Inland_bassin_Water_Occurrence_1984.5_2021")
  /\ ~ Forall (Forall slug_char) (export_descriptions sample_printing big)
  /\ ~ Forall (Forall slug_char) (export_descriptions sample_printing half).
Proof.
  cbv zeta. split; [vm_compute; reflexivity|]. split; [vm_compute; reflexivity|].
  split; intros H; apply all_kept in H; vm_compute in H; discriminate H.
Qed.

End GswRobustNamesFacts.

Module GswRobustChartsFacts.
Import Ee GswRobustCharts.

Lemma change_bin_value (v : Z) :
  -100 <= v <= 100 ->
  clamp_int32 (Qfloor (inject_Z v / inject_Z BIN_WIDTH) * BIN_WIDTH) = v / 10 * 10.
Proof.
  intros Hv. rewrite <- Zdiv_Qdiv. unfold BIN_WIDTH.
  pose proof (Z.mul_div_le v 10) as H1.
  pose proof (Z.mul_succ_div_gt v 10) as H2.
  unfold clamp_int32, INT32_MIN, INT32_MAX. lia.
Qed.

(** X4.  The bin of a pixel of the change band: there is one exactly when
    the pixel lies in the AOI and its value is between -100 and 100 (so the
    no-data value -128 has none), and it is then the multiple of 10 with
    [bin <= value < bin + 10]. *)
Theorem change_bin_spec (in_aoi : bool) (v b : Z) :
  change_bin (change_valid in_aoi (Some v)) = Some b
  <-> in_aoi = true /\ -100 <= v <= 100 /\ b mod 10 = 0 /\ b <= v < b + 10.
Proof.
  unfold change_valid.
  destruct ((-100 <=? v) && (v <=? 100)) eqn:Hr.
  2:{ cbn [change_bin]. split; [discriminate|]. intros (_ & Hv & _).
      apply andb_false_iff in Hr. rewrite !Z.leb_gt in Hr. lia. }
  apply andb_true_iff in Hr. rewrite !Z.leb_le in Hr.
  destruct in_aoi;
    [|cbn [change_bin]; split; [discriminate | intros [? _]; discriminate]].
  unfold change_bin. rewrite change_bin_value by lia.
  pose proof (Z.mul_div_le v 10) as H1.
  pose proof (Z.mul_succ_div_gt v 10) as H2.
  split.
  - intros [= <-]. rewrite Z.mod_mul by lia. lia.
  - intros (_ & _ & Hm & Hb). f_equal.
    apply Z.mod_divide in Hm; [|lia]. destruct Hm as [k ->].
    assert (v / 10 = k) by (symmetry; apply Z.div_unique with (r := v - k * 10); lia).
    lia.
Qed.

Example change_bin_no_data :
  change_bin (change_valid true (Some (-128))) = None
  /\ change_bin (change_valid true (Some (-7))) = Some (-10)
  /\ change_bin (change_valid true (Some 100)) = Some 100.
Proof. repeat split; vm_compute; reflexivity. Qed.

Lemma by_bin_total : Total by_bin.
Proof. intros f1 f2. unfold by_bin. lia. Qed.

Lemma mapM_is_Some {A B : Type} (f : A -> option B) (l : list A) :
  is_Some (mapM f l) <-> Forall (fun a => is_Some (f a)) l.
Proof.
  split.
  - intros [k Hk]. apply mapM_Some_1 in Hk.
    induction Hk as [|a b l k Hab _ IH]; constructor; eauto.
  - induction 1 as [|a l [b Hb] _ [k IH]]; [eexists; reflexivity|].
    exists (b :: k). apply mapM_Some_2. constructor; [exact Hb|].
    apply mapM_Some_1, IH.
Qed.

Lemma bin_feature_is_Some (g : Group) :
  is_Some (bin_feature g) <-> is_Some (g !! "bin") /\ is_Some (g !! "sum").
Proof.
  unfold bin_feature, dict_get.
  destruct (g !! "bin") as [v|]; simpl;
    [destruct (g !! "sum") as [a|]; simpl|];
    split; intros H; try (destruct H as [[? H1] [? H2]]; discriminate);
    try (destruct H as [? H]; discriminate); eauto.
Qed.

(** X5.  The histogram table: a reduction result without ['groups'] gives
    the empty table, not an error; the table is computed exactly when every
    group has its ['bin'] and its ['sum']; it then has one row per group,
    the rows of the groups reordered by increasing bin. *)
Theorem hist_fc_sorted (bin_area_dict : gmap string (list Group)) :
  (bin_area_dict !! "groups" = None -> hist_fc bin_area_dict = Some [])
  /\ (is_Some (hist_fc bin_area_dict)
      <-> Forall (fun g => is_Some (g !! "bin") /\ is_Some (g !! "sum"))
                 (bin_groups bin_area_dict))
  /\ (forall fc, hist_fc bin_area_dict = Some fc ->
        Sorted by_bin fc
        /\ exists rows,
             Forall2 (fun g f => bin_feature g = Some f)
                     (bin_groups bin_area_dict) rows
             /\ fc ≡ₚ rows).
Proof.
  unfold hist_fc. split; [|split].
  - intros H. unfold bin_groups, dict_get_default. rewrite H. reflexivity.
  - rewrite <- (Forall_iff (fun g => is_Some (bin_feature g)))
      by (intros g; apply bin_feature_is_Some).
    rewrite <- mapM_is_Some.
    destruct (mapM bin_feature (bin_groups bin_area_dict)); simpl;
      split; intros [x Hx]; try discriminate; eauto.
  - intros fc H.
    destruct (mapM bin_feature (bin_groups bin_area_dict)) as [rows|] eqn:E;
      [|discriminate].
    simpl in H. injection H as <-. split.
    + apply (@Sorted_merge_sort _ _ _ by_bin_total).
    + exists rows. split; [apply mapM_Some_1, E|apply merge_sort_Permutation].
Qed.

Lemma hist_fc_sorted_witness :
  hist_fc (<["other" := []]> ∅) = Some [].
Proof.
  apply (hist_fc_sorted (<["other" := []]> ∅)). vm_compute. reflexivity.
Defined.

Example hist_fc_sample :
  map bin_label <$>
    hist_fc {["groups" := [ {["bin" := Int 10; "sum" := Double 2]} : Group;
                            {["bin" := Int (-20); "sum" := Double 5]} ]]}
  = Some ["-20 to -10"; "10 to 20"].
Proof. vm_compute. reflexivity. Qed.

(** *** The transition table of the robust script, whatever the groups *)

Lemma gt_divide_million (a : Number) : gt (divide a ONE_MILLION) 0 = gt a 0.
Proof.
  unfold gt, divide, ONE_MILLION. cbn [to_Q]. f_equal.
  apply eq_true_iff_eq. rewrite !Qle_bool_iff.
  set (q := to_Q a). split; intros H.
  - apply (Qmult_le_r _ _ (/ inject_Z 1000000)); [reflexivity|].
    rewrite Qmult_0_l. exact H.
  - apply (Qmult_le_r _ _ (/ inject_Z 1000000)) in H; [|reflexivity].
    rewrite Qmult_0_l in H. exact H.
Qed.

Lemma robust_createFeature_is_Some (g : Group) :
  is_Some (GswRobust.createFeature g) <-> is_Some (g !! "transition_class_value").
Proof.
  split.
  - unfold GswRobust.createFeature, dict_get.
    destruct (g !! "transition_class_value"); [eauto|].
    intros [f Hf]. discriminate Hf.
  - intros [v Hv]. rewrite (GswFacts.robust_createFeature_eq g v Hv). eauto.
Qed.

Lemma robust_positive_area (g : Group) (f : GswRobust.Feature) :
  GswRobust.createFeature g = Some f ->
  GswRobust.positive_area f = positive_sum g.
Proof.
  intros Hf.
  assert (Hs : is_Some (g !! "transition_class_value"))
    by (apply robust_createFeature_is_Some; eauto).
  destruct Hs as [v Hv]. rewrite (GswFacts.robust_createFeature_eq g v Hv) in Hf.
  injection Hf as <-. unfold GswRobust.positive_area, positive_sum. simpl.
  apply gt_divide_million.
Qed.

Lemma filter_length_Forall2 {A B : Type} (p : A -> bool) (q : B -> bool)
    (l : list A) (k : list B) :
  Forall2 (fun a b => q b = p a) l k ->
  length (List.filter q k) = length (List.filter p l).
Proof.
  induction 1 as [|a b l k Hab _ IH]; [reflexivity|].
  simpl. rewrite Hab. destruct (p a); simpl; rewrite IH; reflexivity.
Qed.

Lemma robust_transition_fc_unfold (groups : list Group) :
  GswRobust.transition_fc groups =
    fc ← mapM GswRobust.createFeature groups ;
    Some (merge_sort GswRobust.by_area_desc (List.filter GswRobust.positive_area fc)).
Proof. unfold GswRobust.transition_fc. destruct groups; reflexivity. Qed.

(** X6.  The robust transition table is computed exactly when every group
    has its key ['transition_class_value'] - whatever the class number, and
    with or without a ['sum'] - and it has one row per group whose ['sum']
    is there and strictly positive; no groups give the empty table. *)
Theorem robust_transition_fc_total (groups : list Group) :
  (is_Some (GswRobust.transition_fc groups)
   <-> Forall (fun g => is_Some (g !! "transition_class_value")) groups)
  /\ (forall fr, GswRobust.transition_fc groups = Some fr ->
        length fr = length (List.filter positive_sum groups))
  /\ GswRobust.transition_fc [] = Some [].
Proof.
  rewrite robust_transition_fc_unfold. split; [|split; [|reflexivity]].
  - rewrite <- (Forall_iff (fun g => is_Some (GswRobust.createFeature g)))
      by (intros g; apply robust_createFeature_is_Some).
    rewrite <- mapM_is_Some.
    destruct (mapM GswRobust.createFeature groups); simpl;
      split; intros [x Hx]; try discriminate; eauto.
  - intros fr H.
    destruct (mapM GswRobust.createFeature groups) as [fc|] eqn:E; [|discriminate].
    simpl in H. injection H as <-.
    rewrite (Permutation_length (merge_sort_Permutation _ _)).
    apply filter_length_Forall2. apply mapM_Some_1 in E.
    eapply Forall2_impl; [exact E|]. intros g f Hgf.
    apply robust_positive_area, Hgf.
Qed.

Example robust_transition_fc_sample :
  map GswRobust.transition_class_name <$>
    GswRobust.transition_fc
      [ {["transition_class_value" := Double (5 # 2)]} : Group;
        {["transition_class_value" := Int 200; "sum" := Double 9]};
        {["transition_class_value" := Int 1; "sum" := Double 0]} ]
  = Some ["Unknown"].
Proof. vm_compute. reflexivity. Qed.

(** X7.  The slices of the pie chart follow the rows of the transition
    table one to one, and the colour of a slice is the colour the
    transition map layer gives the row's class (for the classes 0 to 10;
    '#999999' otherwise). *)
Theorem pie_slices_match_map_palette (groups : list Group)
    (fr : list GswRobust.Feature) :
  GswRobust.transition_fc groups = Some fr ->
  Forall2 (fun f slice =>
             exists p, slice = ({["color" := p]} : gmap string string)
             /\ (if (0 <=? GswRobust.transition_class_number f)
                    && (GswRobust.transition_class_number f <=? 10)
                 then VIS_TRANSITION_palette
                        !! Z.to_nat (GswRobust.transition_class_number f) = Some p
                 else p = "#999999"))
          fr (createPieChartSliceDictionary fr).
Proof.
  rewrite robust_transition_fc_unfold. intros H.
  destruct (mapM GswRobust.createFeature groups) as [fc|] eqn:E; [|discriminate].
  simpl in H. injection H as <-. apply mapM_Some_1 in E.
  unfold createPieChartSliceDictionary. rewrite map_map.
  apply Forall2_fmap_r, Forall_Forall2_diag, Forall_forall.
  intros f Hf. exists (GswRobust.transition_class_palette f). split; [reflexivity|].
  rewrite merge_sort_Permutation in Hf.
  apply list_elem_of_In, List.filter_In in Hf as [Hf _].
  apply list_elem_of_In, list_elem_of_lookup in Hf as [i Hi].
  destruct (Forall2_lookup_r _ _ _ _ _ E Hi) as (g & _ & Hg).
  assert (Hs : is_Some (g !! "transition_class_value"))
    by (apply robust_createFeature_is_Some; eauto).
  destruct Hs as [v Hv]. rewrite (GswFacts.robust_createFeature_eq g v Hv) in Hg.
  injection Hg as <-. simpl. unfold GswRobust.table_color.
  destruct ((0 <=? toInt v) && (toInt v <=? 10)) eqn:Hr; [|reflexivity].
  apply GswFacts.valid_in_class_range in Hr.
  destruct (GswFacts.class_lists_get _ Hr) as (_ & _ & _ & Hc).
  unfold GswRobust.table_color in Hc.
  apply GswFacts.valid_in_class_range in Hr. rewrite Hr in Hc. exact Hc.
Qed.

Lemma pie_slices_match_map_palette_witness :
  createPieChartSliceDictionary
    (default [] (GswRobust.transition_fc GswVariants.sample_groups))
  = [ {["color" := "#22b14c"]}; {["color" := "#d1102d"]} ].
Proof.
  pose proof (pie_slices_match_map_palette GswVariants.sample_groups
                (default [] (GswRobust.transition_fc GswVariants.sample_groups))
                ltac:(vm_compute; reflexivity)) as H.
  vm_compute. reflexivity.
Defined.

End GswRobustChartsFacts.

Module GswGenericMore.
Import Ee.

Lemma to_int_not_nil (z : Z) :
  Z.to_int z <> Decimal.Pos Decimal.Nil /\ Z.to_int z <> Decimal.Neg Decimal.Nil.
Proof.
  split; intros H; pose proof (DecimalZ.of_to z) as Hz; rewrite H in Hz;
    simpl in Hz; subst z; discriminate H.
Qed.

(** Printing an integer in decimal loses nothing. *)
Lemma format_Int_inj (format_double : Q -> string) (z z' : Z) :
  format format_double (Int z) = format format_double (Int z') -> z = z'.
Proof.
  unfold format. intros H. apply DecimalZ.to_int_inj.
  destruct (to_int_not_nil z) as [H1 H2], (to_int_not_nil z') as [H1' H2'].
  pose proof (NilZero.isi _ H1 H2) as E. rewrite H in E.
  rewrite (NilZero.isi _ H1' H2') in E. congruence.
Qed.

Section Generic.
Variable format_double : Q -> string.
Variable class_values : list Number.
Variable class_names : list string.
Variable class_palette : list string.

Local Abbreviation createFeature :=
  (GswGeneric.createFeature format_double class_values class_names class_palette).
Local Abbreviation transition_fc :=
  (GswGeneric.transition_fc format_double class_values class_names class_palette).
Local Abbreviation lookup_names :=
  (GswGeneric.lookup_names format_double class_values class_names).
Local Abbreviation lookup_palette :=
  (GswGeneric.lookup_palette format_double class_values class_palette).
Local Abbreviation known_group := (GswGeneric.known_group format_double).

Lemma createFeature_is_Some (g : Group) :
  is_Some (createFeature g)
  <-> exists names palettes,
        lookup_names = Some names /\ lookup_palette = Some palettes
        /\ known_group names palettes g.
Proof using Type.
  split.
  - intros [f Hf].
    destruct lookup_names as [names|] eqn:Hn.
    2:{ unfold GswGeneric.createFeature in Hf. rewrite Hn in Hf.
        destruct (dict_get g "transition_class_value"); discriminate Hf. }
    destruct lookup_palette as [palettes|] eqn:Hp.
    2:{ unfold GswGeneric.createFeature in Hf. rewrite Hn, Hp in Hf.
        destruct (dict_get g "transition_class_value"); [|discriminate Hf].
        simpl in Hf. destruct (dict_get names _); discriminate Hf. }
    exists names, palettes. split; [reflexivity|]. split; [reflexivity|].
    destruct (proj1 (GswFacts.createFeature_summarises _ _ _ _ names palettes
                       g f Hn Hp) Hf) as (H1 & H2 & H3 & H4).
    eexists _, _. repeat split; eauto.
  - intros (names & palettes & Hn & Hp & n & a & H1 & H4 & [nm H2] & [pl H3]).
    exists {| GswGeneric.transition_class_number := n;
              GswGeneric.transition_class_name := nm;
              GswGeneric.transition_class_palette := pl;
              GswGeneric.area_m2 := a |}.
    apply (GswFacts.createFeature_summarises _ _ _ _ names palettes _ _ Hn Hp).
    repeat split; assumption.
Qed.

Lemma fromLists_is_Some {V : Type} (keys : list string) (values : list V) :
  is_Some (fromLists keys values) <-> length keys = length values.
Proof.
  unfold fromLists. destruct (decide (length keys = length values)).
  - split; eauto.
  - split; [intros [x Hx]; discriminate Hx | contradiction].
Qed.

(** X9.  The generic transition table fails as a whole as soon as one group
    cannot be named: it is computed exactly when there is no group at all,
    or the two lookup dictionaries exist and every group has its key, its
    sum, and an entry for its key in both dictionaries.  In particular a
    list of names or colours whose length differs from the list of class
    values fails it for any non-empty reduction result. *)
Theorem generic_transition_fc_computed (roi_stats : list Group) :
  (is_Some (transition_fc roi_stats)
   <-> roi_stats = []
       \/ exists names palettes,
            lookup_names = Some names /\ lookup_palette = Some palettes
            /\ Forall (known_group names palettes) roi_stats)
  /\ (length class_names <> length class_values
      \/ length class_palette <> length class_values ->
      roi_stats <> [] -> transition_fc roi_stats = None).
Proof using Type.
  assert (Hiff : is_Some (transition_fc roi_stats)
            <-> roi_stats = []
                \/ exists names palettes,
                     lookup_names = Some names /\ lookup_palette = Some palettes
                     /\ Forall (known_group names palettes) roi_stats).
  { unfold GswGeneric.transition_fc.
    rewrite GswRobustChartsFacts.mapM_is_Some. split.
    - intros H. destruct roi_stats as [|g gs]; [left; reflexivity|right].
      pose proof (Forall_inv H) as Hg.
      apply createFeature_is_Some in Hg as (names & palettes & Hn & Hp & _).
      exists names, palettes. split; [exact Hn|]. split; [exact Hp|].
      eapply Forall_impl; [exact H|]. intros g' Hg'.
      apply createFeature_is_Some in Hg' as (names' & palettes' & Hn' & Hp' & Hk).
      congruence.
    - intros [E|(names & palettes & Hn & Hp & H)]; [rewrite E; constructor|].
      eapply Forall_impl; [exact H|]. intros g Hg.
      apply createFeature_is_Some. eauto. }
  split; [exact Hiff|].
  intros Hlen Hne.
  destruct (transition_fc roi_stats) as [fc|] eqn:E; [|reflexivity].
  exfalso.
  destruct (proj1 Hiff (ex_intro _ fc eq_refl))
    as [E'|(names & palettes & Hn & Hp & _)]; [congruence|].
  assert (H1 : is_Some lookup_names) by eauto.
  assert (H2 : is_Some lookup_palette) by eauto.
  unfold GswGeneric.lookup_names in H1. unfold GswGeneric.lookup_palette in H2.
  apply fromLists_is_Some in H1, H2. rewrite length_map in H1, H2.
  destruct Hlen; congruence.
Qed.

End Generic.

Lemma generic_transition_fc_computed_witness :
  GswGeneric.transition_fc (fun _ => "") GswVariants.documented_values
    ["only one name"] GswVariants.documented_palette GswVariants.sample_groups
  = None.
Proof.
  apply (generic_transition_fc_computed (fun _ => "") GswVariants.documented_values
           ["only one name"] GswVariants.documented_palette
           GswVariants.sample_groups).
  - left. vm_compute. discriminate.
  - discriminate.
Defined.

Section ByPosition.
Variable format_double : Q -> string.
Variable zs : list Z.
Variable class_names : list string.
Variable class_palette : list string.

Lemma keys_NoDup :
  NoDup zs -> NoDup (map (GswGeneric.numToString format_double) (map Int zs)).
Proof using Type.
  intros H. rewrite map_map. apply (NoDup_fmap_2_strong _); [|exact H].
  intros z z' _ _ Hz. apply (format_Int_inj format_double), Hz.
Qed.

(** X8.  When the class values of the dataset are pairwise distinct
    integers and the three metadata lists have the same length, a group
    whose key is the class value at some position gets the name and the
    colour at that position. *)
Theorem generic_createFeature_by_position
    (i : nat) (z : Z) (nm pl : string) (g : Group) (a : Number) :
  NoDup zs ->
  length class_names = length zs -> length class_palette = length zs ->
  zs !! i = Some z -> class_names !! i = Some nm -> class_palette !! i = Some pl ->
  g !! "transition_class_value" = Some (Int z) -> g !! "sum" = Some a ->
  GswGeneric.createFeature format_double (map Int zs) class_names class_palette g
  = Some {| GswGeneric.transition_class_number := Int z;
            GswGeneric.transition_class_name := nm;
            GswGeneric.transition_class_palette := pl;
            GswGeneric.area_m2 := a |}.
Proof using Type.
  intros Hnd Hln Hlp Hz Hnm Hpl Hg Ha.
  pose proof (keys_NoDup Hnd) as Hkeys.
  assert (Hkey : map (GswGeneric.numToString format_double) (map Int zs) !! i
                 = Some (format format_double (Int z))).
  { rewrite map_map. change (map ?f ?l) with (f <$> l).
    rewrite list_lookup_fmap, Hz. reflexivity. }
  destruct (proj2 (fromLists_is_Some
              (map (GswGeneric.numToString format_double) (map Int zs)) class_names)
              ltac:(rewrite !length_map; congruence)) as [names Hn].
  destruct (proj2 (fromLists_is_Some
              (map (GswGeneric.numToString format_double) (map Int zs)) class_palette)
              ltac:(rewrite !length_map; congruence)) as [palettes Hp].
  apply (GswFacts.createFeature_summarises format_double (map Int zs)
           class_names class_palette names palettes g _ Hn Hp).
  unfold GswGeneric.summarises. simpl. repeat split; try assumption.
  - apply (GswFacts.fromLists_lookup _ _ _ i _ _ Hkeys Hn Hkey Hnm).
  - apply (GswFacts.fromLists_lookup _ _ _ i _ _ Hkeys Hp Hkey Hpl).
Qed.
End ByPosition.

Lemma generic_createFeature_by_position_witness :
  GswGeneric.transition_class_name <$>
    GswGeneric.createFeature (fun _ => "") (map Int [0; 1; 2; 3]) ["a"; "b"; "c"; "d"]
      ["w"; "x"; "y"; "z"] (GswVariants.group 2 5)
  = Some "c".
Proof.
  assert (Hg : GswVariants.group 2 5 !! "transition_class_value" = Some (Int 2))
    by (vm_compute; reflexivity).
  assert (Ha : GswVariants.group 2 5 !! "sum" = Some (Double 5))
    by (vm_compute; reflexivity).
  rewrite (generic_createFeature_by_position (fun _ => "") [0; 1; 2; 3]
             ["a"; "b"; "c"; "d"] ["w"; "x"; "y"; "z"] 2%nat 2 "c" "y"
             (GswVariants.group 2 5) (Double 5)
             ltac:(apply (bool_decide_unpack _); vm_compute; exact I)
             eq_refl eq_refl eq_refl eq_refl eq_refl Hg Ha).
  reflexivity.
Defined.

End GswGenericMore.

Module ScriptMore.
Import Script ScriptFacts.



(** X11.  With [use_custom_aoi = true] and nothing imported as [AOI], every
    script stops before any export: the robust GSW script with its own
    error message, the others on the first member access on [AOI] (the DEM
    script, which does not declare [AOI], with a ReferenceError, and that
    whatever [use_custom_aoi] is). *)
Theorem missing_import_stops_run (s : ScriptId) (env : Env) :
  imported_AOI env = None ->
  use_custom_aoi env = true \/ s = DEM ->
  outcome (run s env) =
    Thrown (match s with
            | GSW_robust =>
                Error "use_custom_aoi=true, but no AOI was imported. Import AOI in the Imports panel."
            | DEM => ReferenceError "AOI"
            | _ => TypeError "geometry"
            end)
  /\ exports (trace (run s env)) = [].
Proof.
  intros Hi Hu. destruct env as [u a i]. simpl in Hi, Hu. subst i.
  destruct s; destruct u; try (destruct Hu; discriminate); split; reflexivity.
Qed.

Lemma missing_import_stops_run_witness :
  outcome (run NDVI (ScriptSamples.env_import true None)) = Thrown (TypeError "geometry").
Proof.
  apply (missing_import_stops_run NDVI (ScriptSamples.env_import true None) eq_refl).
  left. reflexivity.
Defined.

(** X12.  With a geometry (not a feature collection) imported as [AOI] and
    [use_custom_aoi = true], the robust GSW script is the only one that
    completes: the others call [AOI.style] (or [AOI.size]), which a geometry
    does not have. *)
Theorem geometry_import_needs_robust (s : ScriptId) (env : Env) :
  imported_AOI env = Some EeGeometry -> use_custom_aoi env = true ->
  (completes (run s env) <-> s = GSW_robust).
Proof.
  intros Hi Hu. destruct env as [u a i]. simpl in Hi, Hu. subst i u.
  destruct s; split; intros H; try discriminate H; try reflexivity;
    solve [ apply done_completes
          | exfalso; revert H; apply thrown_not_completes ].
Qed.

Lemma geometry_import_needs_robust_witness :
  completes (run GSW_robust (ScriptSamples.env_import true (Some EeGeometry))).
Proof.
  apply (geometry_import_needs_robust GSW_robust
           (ScriptSamples.env_import true (Some EeGeometry)) eq_refl eq_refl).
  reflexivity.
Defined.

End ScriptMore.

Module ChirpsAoiFacts.
Import Script ChirpsAoi.

Lemma strict_eq_number_excl (v : JsValue) (a b : Z) :
  a <> b -> strict_eq_number v a = true -> strict_eq_number v b = false.
Proof.
  intros Hab Ha. destruct v as [| |x|q|s]; try reflexivity. simpl in *.
  apply Qeq_bool_iff in Ha. apply not_true_is_false. intros Hb.
  apply Qeq_bool_iff in Hb. rewrite Ha in Hb.
  unfold Qeq in Hb. simpl in Hb. lia.
Qed.

Lemma Filter_inList_named (name : string) (names : list string) (f : Feature) :
  names <> [] ->
  Filter_inList name names f = true <-> named_in name names f.
Proof.
  intros Hne. unfold Filter_inList, named_in. split.
  - destruct (f !! name) as [v|]; [|discriminate].
    intros H. apply bool_decide_eq_true in H. right. eauto.
  - intros [E|(v & -> & Hv)]; [contradiction|].
    apply bool_decide_eq_true, Hv.
Qed.

Lemma nonempty_false (names : list string) : nonempty names = false -> names = [].
Proof. destruct names; [reflexivity|discriminate]. Qed.

Lemma nonempty_true (names : list string) : nonempty names = true -> names <> [].
Proof. destruct names; [discriminate|intros _ H; discriminate H]. Qed.

(** Filtering by a list of names, when there is one. *)
Lemma optional_filter_In (name : string) (names : list string)
    (l : list Feature) (f : Feature) :
  In f (if nonempty names then List.filter (Filter_inList name names) l else l)
  <-> In f l /\ named_in name names f.
Proof.
  destruct (nonempty names) eqn:E.
  - rewrite List.filter_In, (Filter_inList_named _ _ _ (nonempty_true _ E)).
    reflexivity.
  - apply nonempty_false in E. unfold named_in. tauto.
Qed.

Lemma country_filter_In (country : string) (l : list Feature) (f : Feature) :
  In f (List.filter (Filter_eq "ADM0_NAME" country) l)
  <-> In f l /\ f !! "ADM0_NAME" = Some country.
Proof.
  rewrite List.filter_In. unfold Filter_eq. rewrite bool_decide_eq_true.
  reflexivity.
Qed.

(** X13.  For [admin_level] 0, 1 or 2 the AOI is made of the features of
    that level's GAUL collection that belong to the country, restricted to
    [admin1_names] from level 1 on and to [admin2_names] at level 2; an
    empty list of names restricts nothing, [admin2_names] plays no part
    below level 2 and [admin1_names] none at level 0. *)
(** Both sides list the same conditions, up to the trivial ones. *)
Ltac finish_selected :=
  unfold level_collection; simpl;
  let H := fresh "H" in
  split; intros H; decompose [and] H; clear H;
  repeat split; try assumption; intros;
  solve [ assumption | lia | exfalso; lia | left; assumption
        | match goal with Hx : _ <= _ -> _ |- _ => apply Hx; lia end ].

Theorem admin_aoi_selected (cfg : Settings) (k : Z)
    (level0 level1 level2 : list Feature) :
  0 <= k <= 2 -> strict_eq_number (admin_level cfg) k = true ->
  exists AOI aoi_label,
    admin_aoi cfg level0 level1 level2 = Done (AOI, aoi_label)
    /\ forall f, In f AOI
                 <-> In f (level_collection k level0 level1 level2)
                     /\ selected k cfg f.
Proof.
  intros Hk Hl. unfold admin_aoi, selected.
  assert (Hcases : k = 0 \/ k = 1 \/ k = 2) by lia.
  destruct Hcases as [-> | [-> | ->]].
  - rewrite Hl. eexists _, _. split; [reflexivity|]. intros f.
    rewrite country_filter_In. finish_selected.
  - rewrite (strict_eq_number_excl _ 1 0) by (lia || exact Hl). rewrite Hl.
    destruct (nonempty (admin1_names cfg)) eqn:E;
      eexists _, _; (split; [reflexivity|]); intros f.
    + pose proof (optional_filter_In "ADM1_NAME" (admin1_names cfg)
                    (List.filter (Filter_eq "ADM0_NAME" (country_name cfg)) level1) f)
        as H. rewrite E in H. rewrite H, country_filter_In. finish_selected.
    + apply nonempty_false in E. rewrite country_filter_In. finish_selected.
  - rewrite (strict_eq_number_excl _ 2 0), (strict_eq_number_excl _ 2 1)
      by (lia || exact Hl). rewrite Hl.
    destruct (nonempty (admin2_names cfg)) eqn:E;
      eexists _, _; (split; [reflexivity|]); intros f.
    + pose proof (optional_filter_In "ADM2_NAME" (admin2_names cfg)
                    (if nonempty (admin1_names cfg)
                     then List.filter (Filter_inList "ADM1_NAME" (admin1_names cfg))
                            (List.filter (Filter_eq "ADM0_NAME" (country_name cfg)) level2)
                     else List.filter (Filter_eq "ADM0_NAME" (country_name cfg)) level2) f)
        as H. rewrite E in H.
      rewrite H, optional_filter_In, country_filter_In. finish_selected.
    + apply nonempty_false in E.
      rewrite optional_filter_In, country_filter_In. finish_selected.
Qed.

Lemma admin_aoi_selected_witness :
  exists AOI aoi_label,
    admin_aoi source_settings [] [] sample_level2 = Done (AOI, aoi_label)
    /\ (In (gaul "Portugal" "Beja" "Odemira") AOI
        <-> In (gaul "Portugal" "Beja" "Odemira") sample_level2
            /\ selected 2 source_settings (gaul "Portugal" "Beja" "Odemira")).
Proof.
  destruct (admin_aoi_selected source_settings 2 [] [] sample_level2
              ltac:(lia) eq_refl) as (AOI & aoi_label & H & Hin).
  exists AOI, aoi_label. split; [exact H|apply Hin].
Defined.

Example admin_aoi_sample :
  admin_aoi source_settings [] [] sample_level2
  = Done ([gaul "Portugal" "Beja" "Odemira"], "Portugal (Level 2: Odemira)").
Proof. vm_compute. reflexivity. Qed.

(** X14.  At level 2 the label names [admin2_names] only: with
    [admin2_names] empty it is '<country> (All Level 2)' even when
    [admin1_names] restricts the AOI to some regions. *)
Theorem level2_label_ignores_admin1 (cfg : Settings)
    (level0 level1 level2 : list Feature) :
  strict_eq_number (admin_level cfg) 2 = true -> admin2_names cfg = [] ->
  exists AOI,
    admin_aoi cfg level0 level1 level2
      = Done (AOI, country_name cfg +:+ " (All Level 2)")
    /\ forall f, In f AOI -> named_in "ADM1_NAME" (admin1_names cfg) f.
Proof.
  intros Hl H2. unfold admin_aoi.
  rewrite (strict_eq_number_excl _ 2 0), (strict_eq_number_excl _ 2 1)
    by (lia || exact Hl). rewrite Hl, H2. simpl.
  eexists. split; [reflexivity|]. intros f Hf.
  apply optional_filter_In in Hf. tauto.
Qed.

Lemma level2_label_ignores_admin1_witness :
  admin_aoi {| country_name := "Portugal"; admin_level := JsNumber 2;
               admin1_names := ["Faro"]; admin2_names := [] |}
    [] [] sample_level2
  = Done ([gaul "Portugal" "Faro" "Aljezur"], "Portugal (All Level 2)").
Proof.
  destruct (level2_label_ignores_admin1
              {| country_name := "Portugal"; admin_level := JsNumber 2;
                 admin1_names := ["Faro"]; admin2_names := [] |}
              [] [] sample_level2 eq_refl eq_refl) as (AOI & H & _).
  vm_compute. reflexivity.
Defined.

(** X15.  The exported table has a name column for every admin level up to
    the chosen one and for no other: for [admin_level] 0, 1 or 2 the
    selectors contain ['ADMj_NAME'] exactly for [j <= admin_level], always
    followed by the centroid and the four statistics. *)
Theorem selectors_per_level (v : JsValue) (k : Z) :
  0 <= k <= 2 -> strict_eq_number v k = true ->
  (In "ADM0_NAME" (selectors v))
  /\ (In "ADM1_NAME" (selectors v) <-> 1 <= k)
  /\ (In "ADM2_NAME" (selectors v) <-> 2 <= k)
  /\ exists names,
       selectors v = names ++ ["longitude"; "latitude"; "mean"; "min"; "max"; "sum"]
       /\ Z.of_nat (length names) = k + 1.
Proof.
  intros Hk Hl. unfold selectors.
  assert (Hcases : k = 0 \/ k = 1 \/ k = 2) by lia.
  destruct Hcases as [-> | [-> | ->]].
  - rewrite (strict_eq_number_excl _ 0 1), (strict_eq_number_excl _ 0 2)
      by (lia || exact Hl).
    split; [simpl; tauto|]. split; [simpl; split; [intuition discriminate|lia]|].
    split; [simpl; split; [intuition discriminate|lia]|].
    exists ["ADM0_NAME"]. split; reflexivity.
  - rewrite Hl, (strict_eq_number_excl _ 1 2) by (lia || exact Hl).
    split; [simpl; tauto|]. split; [simpl; split; [lia|tauto]|].
    split; [simpl; split; [intuition discriminate|lia]|].
    exists ["ADM0_NAME"; "ADM1_NAME"]. split; reflexivity.
  - rewrite Hl.
    split; [simpl; tauto|]. split; [simpl; split; [lia|tauto]|].
    split; [simpl; split; [lia|tauto]|].
    exists ["ADM0_NAME"; "ADM1_NAME"; "ADM2_NAME"]. split; reflexivity.
Qed.

Lemma selectors_per_level_witness :
  In "ADM1_NAME" (selectors (JsNumber 1)) /\ ~ In "ADM2_NAME" (selectors (JsNumber 1)).
Proof.
  destruct (selectors_per_level (JsNumber 1) 1 ltac:(lia) eq_refl)
    as (_ & H1 & H2 & _).
  split; [apply H1; lia|]. intros H. apply H2 in H. lia.
Defined.

End ChirpsAoiFacts.

Module ChirpsMore.
Import Imagery Chirps ChirpsSamples ChirpsFacts.

Lemma date_le_lt (a b : Date) : date_le a b = negb (date_lt b a).
Proof.
  unfold date_le, date_lt.
  destruct (Z.ltb_spec (year a) (year b)), (Z.ltb_spec (year b) (year a)),
    (Z.eqb_spec (year a) (year b)), (Z.eqb_spec (year b) (year a)),
    (Z.leb_spec (doy a) (doy b)), (Z.ltb_spec (doy b) (doy a));
    simpl; try reflexivity; lia.
Qed.

Lemma filter_drop {A : Type} (f : A -> bool) (l1 l2 : list A) (a : A) :
  f a = false -> List.filter f (l1 ++ a :: l2) = List.filter f (l1 ++ l2).
Proof.
  intros H. rewrite !List.filter_app. simpl. rewrite H. reflexivity.
Qed.

Section Data.
Variable cfg : Settings.
Variable AOIgeom : Geometry.

(** X16.  The total of the study period counts the images from
    [study_start] on and before [study_end]: an image dated earlier than
    [study_start], or on [study_end] or later, changes nothing, wherever it
    stands in the dataset. *)
Theorem chirps_study_ignores_outside (l1 l2 : ImageCollection) (i : Image)
    (d : Date) (p : Pixel) :
  date i = Some d ->
  date_lt d (study_start cfg) = true \/ date_le (study_end cfg) d = true ->
  pixels (chirps_study cfg AOIgeom (l1 ++ i :: l2)) p
  = pixels (chirps_study cfg AOIgeom (l1 ++ l2)) p.
Proof using Type.
  intros Hd Hout.
  assert (Hf : Filter_date (study_start cfg) (study_end cfg) i = false).
  { unfold Filter_date. rewrite Hd.
    rewrite (date_le_lt (study_start cfg) d).
    destruct Hout as [H|H].
    - rewrite H. reflexivity.
    - rewrite (date_le_lt (study_end cfg) d) in H.
      apply negb_true_iff in H. rewrite H. apply andb_false_r. }
  unfold chirps_study, chirps, filterBounds.
  rewrite !filter_filter_andb.
  rewrite filter_drop by (rewrite Hf; apply andb_false_r).
  reflexivity.
Qed.

Lemma out_of_season (y : Z) (i : Image) (d : Date) :
  doy_start cfg <= doy_end cfg ->
  date i = Some d ->
  baseline_start_year cfg <= y <= baseline_end_year cfg ->
  year d < baseline_start_year cfg \/ baseline_end_year cfg < year d
  \/ doy d < doy_start cfg \/ doy_end cfg < doy d ->
  in_season cfg y i = false.
Proof using Type.
  intros Hw Hd Hy Hout. unfold in_season, in_window. rewrite Hd.
  rewrite (proj2 (Z.leb_le _ _) Hw).
  destruct (Z.eqb_spec (year d) y), (Z.leb_spec (doy_start cfg) (doy d)),
    (Z.leb_spec (doy d) (doy_end cfg)); simpl; try reflexivity; lia.
Qed.

Lemma omap_ext_In {A B : Type} (f g : A -> option B) (l : list A) :
  (forall a, In a l -> f a = g a) -> omap f l = omap g l.
Proof.
  induction l as [|a l IH]; intros H; [reflexivity|].
  change (omap f (a :: l))
    with (match f a with Some c => c :: omap f l | None => omap f l end).
  change (omap g (a :: l))
    with (match g a with Some c => c :: omap g l | None => omap g l end).
  rewrite (H a) by (left; reflexivity).
  rewrite IH by (intros b Hb; apply H; right; exact Hb). reflexivity.
Qed.

Lemma baseline_pixels (dataset : ImageCollection) (p : Pixel) :
  pixels (chirps_baseline cfg AOIgeom dataset) p
  = mean_of_season_totals cfg AOIgeom dataset p.
Proof using Type.
  unfold chirps_baseline, mean_of_season_totals, mean, fromImages.
  cbn [pixels composite]. unfold values_at.
  rewrite (omap_map_ext _ _ (fun y => season_total cfg AOIgeom dataset y p))
    by (intros y; apply year_total).
  reflexivity.
Qed.

(** X17.  The baseline depends only on the images of the baseline years
    and of the day-of-year window: with [doy_start <= doy_end], an image of
    a year outside [baseline_start_year, baseline_end_year], or of a day
    outside [doy_start, doy_end], changes nothing (so the images of a
    later study period do not enter the baseline). *)
Theorem chirps_baseline_ignores_outside (l1 l2 : ImageCollection) (i : Image)
    (d : Date) (p : Pixel) :
  doy_start cfg <= doy_end cfg ->
  date i = Some d ->
  year d < baseline_start_year cfg \/ baseline_end_year cfg < year d
  \/ doy d < doy_start cfg \/ doy_end cfg < doy d ->
  pixels (chirps_baseline cfg AOIgeom (l1 ++ i :: l2)) p
  = pixels (chirps_baseline cfg AOIgeom (l1 ++ l2)) p.
Proof using Type.
  intros Hw Hd Hout. rewrite !baseline_pixels.
  unfold mean_of_season_totals.
  rewrite (omap_ext_In _ (fun y => season_total cfg AOIgeom (l1 ++ l2) y p));
    [reflexivity|].
  intros y Hy.
  apply (proj1 (List_sequence_spec _ _)) in Hy.
  unfold season_total, chirps, filterBounds.
  rewrite !filter_filter_andb.
  rewrite filter_drop
    by (rewrite (out_of_season y i d Hw Hd Hy Hout); apply andb_false_r).
  reflexivity.
Qed.

(** X18.  With [baseline_end_year < baseline_start_year] there is no
    baseline year: the baseline has no value at any pixel, and neither has
    the anomaly. *)
Theorem empty_baseline_range (dataset : ImageCollection) (p : Pixel) :
  baseline_end_year cfg < baseline_start_year cfg ->
  years cfg = []
  /\ pixels (chirps_baseline cfg AOIgeom dataset) p = None
  /\ pixels (rainfall_anomaly cfg AOIgeom dataset) p = None.
Proof using Type.
  intros H.
  assert (Hy : years cfg = []).
  { unfold years, List_sequence.
    replace (Z.to_nat (baseline_end_year cfg - baseline_start_year cfg + 1))
      with 0%nat by lia. reflexivity. }
  assert (Hb : pixels (chirps_baseline cfg AOIgeom dataset) p = None).
  { unfold chirps_baseline. rewrite Hy. reflexivity. }
  split; [exact Hy|]. split; [exact Hb|].
  unfold rainfall_anomaly, clip, subtract, baseline_masked, updateMask.
  cbn [pixels]. rewrite Hb.
  destruct (covers AOIgeom p); [|reflexivity].
  destruct (pixels (chirps_study cfg AOIgeom dataset) p); [|reflexivity].
  destruct (pixels (mask (chirps_study cfg AOIgeom dataset)) p) as [w|];
    [destruct (Qeq_bool w 0)|]; reflexivity.
Qed.

End Data.

Lemma chirps_study_ignores_outside_witness :
  pixels (chirps_study source_settings sample_aoi
            ([daily 2024 10 4] ++ daily 2024 366 50 :: [daily 2024 20 6])) (0, 0)
  = pixels (chirps_study source_settings sample_aoi
              ([daily 2024 10 4] ++ [daily 2024 20 6])) (0, 0).
Proof.
  apply (chirps_study_ignores_outside source_settings sample_aoi
           [daily 2024 10 4] [daily 2024 20 6] (daily 2024 366 50)
           {| year := 2024; doy := 366 |} (0, 0) eq_refl).
  right. reflexivity.
Defined.

Lemma chirps_baseline_ignores_outside_witness :
  pixels (chirps_baseline source_settings sample_aoi
            ([] ++ daily 2024 10 4 :: sample_dataset)) (0, 0)
  = pixels (chirps_baseline source_settings sample_aoi ([] ++ sample_dataset)) (0, 0).
Proof.
  apply (chirps_baseline_ignores_outside source_settings sample_aoi
           [] sample_dataset (daily 2024 10 4)
           {| year := 2024; doy := 10 |} (0, 0)).
  - vm_compute. discriminate.
  - reflexivity.
  - right. left. vm_compute. reflexivity.
Defined.

Lemma empty_baseline_range_witness :
  pixels (rainfall_anomaly
            {| study_start := {| year := 2001; doy := 1 |};
               study_end := {| year := 2002; doy := 1 |};
               baseline_start_year := 2015; baseline_end_year := 2000;
               doy_start := 1; doy_end := 365 |}
            sample_aoi sample_dataset) (0, 0) = None.
Proof.
  apply (empty_baseline_range
           {| study_start := {| year := 2001; doy := 1 |};
              study_end := {| year := 2002; doy := 1 |};
              baseline_start_year := 2015; baseline_end_year := 2000;
              doy_start := 1; doy_end := 365 |}
           sample_aoi sample_dataset (0, 0)).
  vm_compute. reflexivity.
Defined.

Section SameYear.
Variable Y : Z.
Variable AOIgeom : Geometry.
Variable dataset : ImageCollection.

Lemma whole_year_filters (i : Image) :
  calendar_date i ->
  Filter_date (study_start (whole_year Y)) (study_end (whole_year Y)) i
  = in_season (whole_year Y) Y i.
Proof using Type.
  intros Hc. unfold Filter_date, in_season, in_window, calendar_date in *.
  destruct (date i) as [d|]; [|reflexivity].
  specialize (Hc d eq_refl). unfold date_le, date_lt. simpl.
  destruct (Z.ltb_spec Y (year d)), (Z.eqb_spec Y (year d)),
    (Z.leb_spec 1 (doy d)), (Z.ltb_spec (year d) (Y + 1)),
    (Z.eqb_spec (year d) (Y + 1)), (Z.ltb_spec (doy d) 1),
    (Z.eqb_spec (year d) Y), (Z.leb_spec (doy d) 366);
    simpl; try reflexivity; lia.
Qed.

Lemma whole_year_study (p : Pixel) :
  Forall calendar_date dataset ->
  pixels (chirps_study (whole_year Y) AOIgeom dataset) p
  = season_total (whole_year Y) AOIgeom dataset Y p.
Proof using Type.
  intros Hc. unfold chirps_study, season_total, clip, sum. cbn [pixels composite].
  rewrite (List.filter_ext_in _ (in_season (whole_year Y) Y)); [reflexivity|].
  intros i Hi. apply whole_year_filters.
  unfold chirps, filterBounds in Hi. apply List.filter_In in Hi as [Hi _].
  rewrite List.Forall_forall in Hc. apply Hc, Hi.
Qed.

(** X19.  A year against itself: with the study period the whole year [Y],
    the baseline the single year [Y] and all days of the year, the anomaly
    is 0 at every pixel where the study total has a value, and has no value
    elsewhere. *)
Theorem year_against_itself (p : Pixel) :
  Forall calendar_date dataset ->
  match pixels (rainfall_anomaly (whole_year Y) AOIgeom dataset) p with
  | Some q => (q == 0)%Q
  | None => pixels (chirps_study (whole_year Y) AOIgeom dataset) p = None
  end.
Proof using Type.
  intros Hc.
  assert (Hb : pixels (chirps_baseline (whole_year Y) AOIgeom dataset) p
               = match pixels (chirps_study (whole_year Y) AOIgeom dataset) p with
                 | Some t => Some (qsum [t] / inject_Z (Z.of_nat 1))%Q
                 | None => None
                 end).
  { rewrite (baseline_pixels (whole_year Y) AOIgeom dataset p).
    rewrite (whole_year_study p Hc). unfold mean_of_season_totals, years.
    cbn [baseline_start_year baseline_end_year whole_year]. unfold List_sequence.
    replace (Z.to_nat (Y - Y + 1)) with 1%nat by lia.
    cbn [seq map]. replace (Y + Z.of_nat 0) with Y by lia.
    change (omap ?f [Y]) with (match f Y with Some c => [c] | None => [] end).
    destruct (season_total (whole_year Y) AOIgeom dataset Y p); reflexivity. }
  assert (Hs : covers AOIgeom p = false ->
               pixels (chirps_study (whole_year Y) AOIgeom dataset) p = None).
  { intros Hp. unfold chirps_study. cbn [pixels clip]. rewrite Hp. reflexivity. }
  unfold rainfall_anomaly, baseline_masked.
  remember (chirps_study (whole_year Y) AOIgeom dataset) as study eqn:Es.
  remember (chirps_baseline (whole_year Y) AOIgeom dataset) as baseline eqn:Eb.
  unfold clip, subtract, updateMask, mask, composite. cbn [pixels]. rewrite Hb.
  destruct (covers AOIgeom p) eqn:Hp; [|apply Hs; reflexivity].
  destruct (pixels study p) as [t|]; [|reflexivity].
  change (Qeq_bool 1 0) with false. cbn iota.
  unfold qsum. simpl foldr. field.
Qed.
End SameYear.

Lemma year_against_itself_witness :
  match pixels (rainfall_anomaly (whole_year 2000) sample_aoi sample_dataset) (0, 0) with
  | Some q => (q == 0)%Q
  | None => False
  end.
Proof.
  pose proof (year_against_itself 2000 sample_aoi sample_dataset (0, 0)) as H.
  assert (Hc : Forall calendar_date sample_dataset).
  { unfold sample_dataset.
    repeat (apply Forall_cons_2; [intros d [= <-]; simpl; lia|]).
    apply Forall_nil_2. }
  specialize (H Hc).
  destruct (pixels (rainfall_anomaly (whole_year 2000) sample_aoi sample_dataset) (0, 0))
    eqn:E; [exact H|].
  vm_compute in H. discriminate H.
Defined.

End ChirpsMore.

Module NdviFacts.
Import Imagery NdviImages.

Lemma parseInt_2_11111 : parseInt_2 "11111" = Some (Z.ones 5).
Proof. reflexivity. Qed.

Lemma land_ones_5 (qa : Z) :
  Z.land qa (Z.ones 5) = 0 <-> forall k, 0 <= k < 5 -> Z.testbit qa k = false.
Proof.
  split.
  - intros H k Hk.
    assert (E : Z.testbit (Z.land qa (Z.ones 5)) k = false)
      by (rewrite H; apply Z.bits_0).
    rewrite Z.land_spec, Z.ones_spec_low in E by lia.
    rewrite andb_true_r in E. exact E.
  - intros H. apply Z.bits_inj'. intros k Hk.
    rewrite Z.land_spec, Z.bits_0.
    destruct (Z.lt_ge_cases k 5) as [Hlt|Hge].
    + rewrite H by lia. reflexivity.
    + rewrite Z.ones_spec_high by lia. apply andb_false_r.
Qed.

(** X20.  [prepSrL7] keeps the value of a band at a pixel exactly where
    the bits 0 to 4 of QA_PIXEL (fill, dilated cloud, cirrus, cloud, cloud
    shadow) are all clear and QA_RADSAT is 0; the higher bits of QA_PIXEL
    (snow, clear, water, confidences) play no part, and a pixel where a
    quality band is masked is masked. *)
Theorem prepSrL7_keeps {A : Type} (q : Quality) (band : option A) (x : A) :
  prepSrL7 q band = Some x
  <-> band = Some x
      /\ (exists qa, QA_PIXEL q = Some qa
                     /\ forall k, 0 <= k < 5 -> Z.testbit qa k = false)
      /\ QA_RADSAT q = Some 0.
Proof.
  unfold prepSrL7, qaMask, saturationMask. rewrite parseInt_2_11111.
  unfold updateMask_at, eq_constant, bitwiseAnd_eq_0.
  destruct q as [[qa|] [rs|]]; cbn [QA_PIXEL QA_RADSAT option_map].
  - destruct (Z.eqb_spec rs 0) as [->|Hrs]; cbn.
    + destruct (Z.eqb_spec (Z.land qa (Z.ones 5)) 0) as [Hq|Hq]; cbn.
      * split; [intros ->|intros [-> _]; reflexivity].
        split; [reflexivity|]. split; [|reflexivity].
        exists qa. split; [reflexivity|]. apply land_ones_5, Hq.
      * split; [discriminate|]. intros (_ & (qa' & [= <-] & Hb) & _).
        exfalso. apply Hq, land_ones_5, Hb.
    + split; [discriminate|]. intros (_ & _ & [= E]). congruence.
  - split; [discriminate|]. intros (_ & _ & E). discriminate E.
  - destruct (rs =? 0); cbn; (split; [discriminate|]);
      intros (_ & (qa' & E & _) & _); discriminate E.
  - split; [discriminate|]. intros (_ & _ & E). discriminate E.
Qed.

(** X21.  The vegetation mask of [addNDVI] reads the first three entries
    of [lc_classes] and no other: with at least three entries the NDVI is
    kept exactly where the land cover is one of the first three, whatever
    follows them; with fewer than three entries the call fails. *)
Theorem addNDVI_first_three_classes (lc_classes : list Z) (lc : option Z)
    (nd : option Q) :
  match addNDVI lc_classes lc nd with
  | Some r =>
      exists c0 c1 c2 rest, lc_classes = c0 :: c1 :: c2 :: rest
        /\ r = match lc with
               | Some v => if bool_decide (v = c0 \/ v = c1 \/ v = c2)
                           then nd else None
               | None => None
               end
  | None => (length lc_classes < 3)%nat
  end.
Proof.
  destruct lc_classes as [|c0 [|c1 [|c2 rest]]]; cbn; try lia.
  exists c0, c1, c2, rest. split; [reflexivity|].
  destruct lc as [v|]; [|reflexivity]. cbn.
  destruct (Z.eqb_spec v c0), (Z.eqb_spec v c1), (Z.eqb_spec v c2); cbn;
    first [ rewrite bool_decide_eq_true_2 by tauto; reflexivity
          | rewrite bool_decide_eq_false_2 by tauto; reflexivity ].
Qed.

Section Script.
Variable cfg : Settings.
Variable AOI_geometry : Geometry.
Variable withNDVI : ImageCollection.

Lemma in_monthlyNDVI_keys (y m : Z) :
  In (y, m) (monthlyNDVI_keys cfg)
  <-> startYear cfg <= y <= endYear cfg /\ startMonth cfg <= m <= endMonth cfg.
Proof using Type.
  unfold monthlyNDVI_keys, years, months.
  destruct (ChirpsFacts.List_sequence_spec (startYear cfg) (endYear cfg)) as (Hy & _).
  destruct (ChirpsFacts.List_sequence_spec (startMonth cfg) (endMonth cfg)) as (Hm & _).
  rewrite List.in_flat_map. split.
  - intros (y' & Hin & Hp). apply List.in_map_iff in Hp as (m' & [= <- <-] & Hm').
    split; [apply Hy, Hin | apply Hm, Hm'].
  - intros [H1 H2]. exists y. split; [apply Hy, H1|].
    apply List.in_map_iff. exists m. split; [reflexivity | apply Hm, H2].
Qed.

Lemma flat_map_pairs_NoDup (ys ms : list Z) :
  List.NoDup ys -> List.NoDup ms ->
  List.NoDup (flat_map (fun y => map (fun m => (y, m)) ms) ys).
Proof.
  intros Hys Hms. induction Hys as [|y ys Hy _ IH]; [constructor|].
  cbn [flat_map]. apply List.NoDup_app.
  - apply Finite.Injective_map_NoDup; [|exact Hms]. intros a b [= ->]. reflexivity.
  - exact IH.
  - intros [y' m'] H1 H2.
    apply List.in_map_iff in H1 as (m1 & [= <- <-] & _).
    apply List.in_flat_map in H2 as (y2 & Hy2 & H2).
    apply List.in_map_iff in H2 as (m2 & [= <- <-] & _). exact (Hy Hy2).
Qed.

Lemma flat_map_pairs_length (ys ms : list Z) :
  length (flat_map (fun y => map (fun m => (y, m)) ms) ys)
  = (length ys * length ms)%nat.
Proof.
  induction ys as [|y ys IH]; [reflexivity|].
  cbn [flat_map]. rewrite length_app, length_map, IH. reflexivity.
Qed.

(** X22.  [monthlyNDVI] holds one image for every year of
    [startYear..endYear] and every month of [startMonth..endMonth], and no
    other: each pair (year, month) of the charting period is the pair of
    properties of exactly one image, so the collection has
    (number of years) x (number of months) images. *)
Theorem monthlyNDVI_one_image_per_month :
  (forall y m, In (y, m) (monthlyNDVI_keys cfg)
     <-> startYear cfg <= y <= endYear cfg /\ startMonth cfg <= m <= endMonth cfg)
  /\ List.NoDup (monthlyNDVI_keys cfg)
  /\ length (monthlyNDVI_keys cfg)
     = (Z.to_nat (endYear cfg - startYear cfg + 1)
        * Z.to_nat (endMonth cfg - startMonth cfg + 1))%nat.
Proof using Type.
  split; [exact in_monthlyNDVI_keys|]. split.
  - apply flat_map_pairs_NoDup; apply ChirpsFacts.List_sequence_spec.
  - unfold monthlyNDVI_keys. rewrite flat_map_pairs_length.
    unfold years, months, List_sequence. rewrite !length_map, !length_seq.
    reflexivity.
Qed.

(** X23.  The anomaly map [anomaly_AOI] and [meanAnomaly] have the same
    value at every pixel: the study mean is clipped to the AOI already, so
    the last clip removes nothing.  Both are masked outside the AOI, also
    where the baseline, which is not clipped, has a value. *)
Theorem anomaly_AOI_is_meanAnomaly (p : Pixel) :
  pixels (anomaly_AOI cfg AOI_geometry withNDVI) p
  = pixels (meanAnomaly cfg AOI_geometry withNDVI) p
  /\ (covers AOI_geometry p = false ->
      pixels (meanAnomaly cfg AOI_geometry withNDVI) p = None).
Proof using Type.
  unfold anomaly_AOI, meanAnomaly, study_meanNDVI.
  set (study := mean _). set (b := baseline _ _).
  unfold clip, subtract. cbn [pixels].
  destruct (covers AOI_geometry p); split; try reflexivity; discriminate.
Qed.

End Script.
End NdviFacts.

Module GfcFacts.
Import Imagery Gfc.



















End GfcFacts.

Module WdpaFacts.
Import Imagery Wdpa.

Lemma select_set_intersects (f : Feature) (v : Value) :
  select columns_to_keep (set f "intersects" v) = select columns_to_keep f.
Proof.
  unfold select, set. cbn [geometry props]. f_equal.
  apply map_eq. intros k. apply option_eq. intros x.
  rewrite !map_lookup_filter_Some, lookup_insert_Some. cbn [fst].
  split.
  - intros [[[<- _]|[_ H]] Hk]; [|split; assumption].
    exfalso. revert Hk. apply (bool_decide_unpack _). vm_compute. exact I.
  - intros [H Hk]. split; [|exact Hk]. right. split; [|exact H].
    intros <-. revert Hk. apply (bool_decide_unpack _). vm_compute. exact I.
Qed.

Lemma in_in_AOI (AOIgeom : Geometry) (raw : list Feature) (g : Feature) :
  In g (in_AOI AOIgeom raw)
  <-> exists f, In f raw /\ intersects (geometry f) AOIgeom = true
                /\ g = set f "intersects" (Bool true).
Proof.
  unfold in_AOI. rewrite List.filter_In, List.in_map_iff. split.
  - intros [(f & <- & Hf) Hi]. exists f. split; [exact Hf|].
    unfold Filter_eq_true, set in Hi. cbn [props] in Hi.
    rewrite lookup_insert_eq in Hi.
    destruct (intersects (geometry f) AOIgeom); [|discriminate].
    split; reflexivity.
  - intros (f & Hf & Hi & ->). split.
    + exists f. rewrite Hi. split; [reflexivity | exact Hf].
    + unfold Filter_eq_true, set. cbn [props]. rewrite lookup_insert_eq.
      reflexivity.
Qed.

Lemma inList_set_intersects (l : list string) (f : Feature) (v : Value) :
  Filter_inList "DESIG_ENG" l (set f "intersects" v) = true
  <-> exists d, props f !! "DESIG_ENG"%string = Some (Str d) /\ d ∈ l.
Proof.
  unfold Filter_inList, set. cbn [props].
  rewrite lookup_insert_ne by discriminate.
  destruct (props f !! "DESIG_ENG"%string) as [[d| |]|].
  - rewrite bool_decide_eq_true. split.
    + intros H. exists d. split; [reflexivity | exact H].
    + intros (d' & [= <-] & H). exact H.
  - split; [discriminate | intros (d' & E & _); discriminate E].
  - split; [discriminate | intros (d' & E & _); discriminate E].
  - split; [discriminate | intros (d' & E & _); discriminate E].
Qed.

(** X27.  The protected areas that are mapped and exported are the
    features of the dataset that intersect the AOI and, when
    [allowedDesigs] is not empty, whose designation is a string of that
    list, each reduced to the columns kept; an empty [allowedDesigs] is no
    restriction.  The property 'intersects', set for the filter, is not
    among the columns: the feature is as if selected from the dataset. *)
Theorem PA_selected_spec (AOIgeom : Geometry) (allowedDesigs : list string)
    (raw : list Feature) (g : Feature) :
  In g (PA_selected AOIgeom allowedDesigs raw)
  <-> exists f, In f raw
        /\ intersects (geometry f) AOIgeom = true
        /\ (allowedDesigs = []
            \/ exists d, props f !! "DESIG_ENG"%string = Some (Str d)
                         /\ d ∈ allowedDesigs)
        /\ g = select columns_to_keep f.
Proof.
  unfold PA_selected, PA. rewrite List.in_map_iff.
  destruct allowedDesigs as [|a l]; cbn [length Nat.ltb Nat.leb].
  - split.
    + intros (m & <- & Hm). apply in_in_AOI in Hm as (f & Hf & Hi & ->).
      exists f. rewrite select_set_intersects. auto.
    + intros (f & Hf & Hi & _ & ->). exists (set f "intersects" (Bool true)).
      rewrite select_set_intersects. split; [reflexivity|].
      apply in_in_AOI. exists f. auto.
  - split.
    + intros (m & <- & Hm). apply List.filter_In in Hm as [Hm Hd].
      apply in_in_AOI in Hm as (f & Hf & Hi & ->).
      apply inList_set_intersects in Hd.
      exists f. rewrite select_set_intersects. auto.
    + intros (f & Hf & Hi & [E|Hd] & ->); [discriminate E|].
      exists (set f "intersects" (Bool true)).
      rewrite select_set_intersects. split; [reflexivity|].
      apply List.filter_In. split.
      * apply in_in_AOI. exists f. auto.
      * apply inList_set_intersects, Hd.
Qed.

End WdpaFacts.
